(** * Jet Engine Tachometer Simulator: a shallow embedding and its properties

    The development follows [Tachometer_Simulator1.2.cpp]:
    - machine integers are [Z] with their ranges written out: [int] has 32
      bits and [long] 64 (the LP64 data model);
    - [double] is IEEE-754 binary64, modelled by the Standard Library's
      executable [spec_float] operations at precision 53 and [emax] 1024;
    - the member functions of [EnginePowerModel], [RPMSource], [FlightHours]
      and [main] are functions that pass the object state explicitly;
    - what [std::lround] returns where the standard leaves it unspecified is
      a parameter of the development;
    - undefined behaviour (signed [int] overflow) is [None]. *)

From Stdlib Require Import ZArith Bool List String Lia Sorted.
From Stdlib Require Import Reals Lra.
From Stdlib Require Import SpecFloat.
Import ListNotations.

Local Open Scope Z_scope.

(** ** Outcomes left open by the language *)

Definition undef (A : Type) : Type := option A.

Definition bind {A B : Type} (c : undef A) (k : A -> undef B) : undef B :=
  match c with
  | Some a => k a
  | None => None
  end.

Notation "x <- c ;; k" := (bind c (fun x => k))
  (at level 61, c at next level, right associativity).

(** ** Machine integers *)

Module Int.

Definition INT_MIN : Z := -2147483648.
Definition INT_MAX : Z := 2147483647.
Definition LONG_MIN : Z := -9223372036854775808.
Definition LONG_MAX : Z := 9223372036854775807.

Definition in_int (z : Z) : bool := (INT_MIN <=? z) && (z <=? INT_MAX).
Definition in_long (z : Z) : bool := (LONG_MIN <=? z) && (z <=? LONG_MAX).

(** [static_cast<int>] of a [long]: the value modulo 2^32, as every
    mainstream implementation defines it (and C++20 requires). *)
Definition of_long (n : Z) : Z := (n + 2147483648) mod 4294967296 - 2147483648.

(** [a + b] on [int]; signed overflow is undefined behaviour. *)
Definition add (a b : Z) : undef Z :=
  let s := a + b in if in_int s then Some s else None.

(** [a / b] and [a % b] on [int] truncate toward zero. *)
Definition div (a b : Z) : Z := Z.quot a b.
Definition rem (a b : Z) : Z := Z.rem a b.

End Int.

(** ** IEEE-754 binary64 *)

Module Double.

Definition prec : Z := 53.
Definition emax : Z := 1024.

Definition double : Type := spec_float.

(** Every C++ [double] is a well-formed [spec_float]: a canonical mantissa
    and an exponent in range.  The properties ask it of the inputs they
    quantify over. *)
Definition valid (x : double) : bool := valid_binary prec emax x.

Definition is_finite (x : double) : bool :=
  match x with
  | S754_zero _ | S754_finite _ _ _ => true
  | _ => false
  end.

Definition is_nonzero (x : double) : bool :=
  match x with
  | S754_finite _ _ _ => true
  | _ => false
  end.

Definition mul : double -> double -> double := SFmul prec emax.
Definition div : double -> double -> double := SFdiv prec emax.
Definition ltb : double -> double -> bool := SFltb.
Definition leb : double -> double -> bool := SFleb.

(** Conversion of an integer to [double], rounding to nearest even. *)
Definition of_Z (z : Z) : double := binary_normalize prec emax z 0 false.

(** The decimal literal [num / den]: both integers are below 2^53 in every
    use, so the correctly rounded quotient is the literal's value. *)
Definition literal (num den : Z) : double := div (of_Z num) (of_Z den).

(** The integer nearest to [m * 2^e], the upper one when halfway. *)
Definition magnitude (m : positive) (e : Z) : Z :=
  match e with
  | Zneg p => (Zpos m + 2 ^ (Zpos p - 1)) / 2 ^ Zpos p
  | _ => Zpos m * 2 ^ e
  end.

(** The nearest integer to a finite [x], halfway cases away from zero. *)
Definition round_half_away (x : double) : Z :=
  match x with
  | S754_finite s m e => if s then - magnitude m e else magnitude m e
  | _ => 0
  end.

(** One possible behaviour of [std::lround] where its result is unspecified:
    the "integer indefinite" value of the x86-64 conversions. *)
Definition lround_indefinite (x : double) : Z := Int.LONG_MIN.

(** The real number a finite [double] stands for. *)
Definition bpow (e : Z) : R := powerRZ 2 e.

Definition sgn (s : bool) : R := if s then (-1)%R else 1%R.

Definition B2R (x : double) : R :=
  match x with
  | S754_finite s m e => (sgn s * (IZR (Zpos m) * bpow e))%R
  | _ => 0%R
  end.

(** [z] is a correct rounding of the real [v]: finite, well formed, of the
    sign of [v], and within half a unit in the last place (relative error
    2^-53, or 2^-1075 absolute in the subnormal range). *)
Definition rounds_to (v : R) (z : double) : Prop :=
  is_finite z = true /\ valid z = true /\
  (Rabs (B2R z - v) <= bpow (-53) * Rabs v + bpow (-1075))%R /\
  ((0 <= v)%R -> (0 <= B2R z)%R) /\ ((v <= 0)%R -> (B2R z <= 0)%R).

(** Vocabulary of the rounding proofs: where a real lies between an
    integer and its successor, as [location] records it. *)
Definition loc_ok (m : Z) (l : location) (x : R) : Prop :=
  match l with
  | loc_Exact => x = IZR m
  | loc_Inexact Lt => (IZR m < x < IZR m + 1 / 2)%R
  | loc_Inexact Eq => x = (IZR m + 1 / 2)%R
  | loc_Inexact Gt => (IZR m + 1 / 2 < x < IZR m + 1)%R
  end.

Definition rec_ok (mrs : shr_record) (x : R) : Prop :=
  0 <= shr_m mrs /\ loc_ok (shr_m mrs) (loc_of_shr_record mrs) x.

Definition mk_float (s : bool) (m e : Z) : double :=
  match m with
  | Z0 => S754_zero s
  | Zpos p => S754_finite s p e
  | Zneg _ => S754_nan
  end.

End Double.

Import Double.

Section Program.

(** [std::lround] leaves its result unspecified for NaN, the infinities and
    values that round outside the range of [long]: whatever the
    implementation returns there is [lround_unspecified]. *)
Variable lround_unspecified : double -> Z.

Definition lround (x : double) : Z :=
  if is_finite x && Int.in_long (round_half_away x)
  then round_half_away x
  else lround_unspecified x.

(** ** Engine power bands *)

Inductive EnginePowerBand : Type :=
  | PowerOff
  | Idle
  | Climb
  | Cruise
  | Caution
  | RedLine
  | OverLimit.

Definition band_eqb (a b : EnginePowerBand) : bool :=
  match a, b with
  | PowerOff, PowerOff | Idle, Idle | Climb, Climb | Cruise, Cruise
  | Caution, Caution | RedLine, RedLine | OverLimit, OverLimit => true
  | _, _ => false
  end.

(** For CSV printing; the ["Unknown"] fallback of the source is unreachable
    on the seven enumerators. *)
Definition to_string (band : EnginePowerBand) : string :=
  match band with
  | PowerOff => "PowerOff"
  | Idle => "Idle"
  | Climb => "Climb"
  | Cruise => "Cruise"
  | Caution => "Caution"
  | RedLine => "RedLine"
  | OverLimit => "OverLimit"
  end.

(** ** What the program prints on [std::cout] *)

Inductive cout_line : Type :=
  | Text (s : string)
  | DroveEngine (rpm : Z) (omega : double)
  | DiagnosticLine (message : string) (code : Z)
  | TimesLine (caution redline : Z).

(** ** Core tachometer engine logic *)

Definition Idle_min : Z := 1000.
Definition Idle_max : Z := 3500.
Definition Climb_min : Z := 3501.
Definition Climb_max : Z := 6000.
Definition Cruise_min : Z := 6001.
Definition Cruise_max : Z := 9000.
Definition Caution_min : Z := 9001.
Definition Caution_max : Z := 9799.
Definition RedLine_min : Z := 9800.
Definition RedLine_max : Z := 10200.

(** [k_pi = 3.141592653589793], and the literals [60.0] and [2.0]. *)
Definition k_pi : double := literal 3141592653589793 1000000000000000.
Definition d60 : double := of_Z 60.
Definition d2 : double := of_Z 2.

Record EnginePowerModel : Type := {
  m_raw_rpm : double;
  m_filtered_rpm : Z;
  m_powerband : EnginePowerBand
}.

Definition EnginePowerModel_init : EnginePowerModel :=
  {| m_raw_rpm := S754_zero false;
     m_filtered_rpm := 0;
     m_powerband := PowerOff |}.

(** The band chain of [update_from_rpm], with the line it prints. *)
Definition classify (filtered_rpm : Z) : EnginePowerBand * list cout_line :=
  if filtered_rpm =? 0 then
    (PowerOff, [])
  else if filtered_rpm <? Idle_min then
    (PowerOff, [Text "RPM Below Idle: Engine not in normal operating band."])
  else if (filtered_rpm >=? Idle_min) && (filtered_rpm <=? Idle_max) then
    (Idle, [Text "Idle: Value is within range."])
  else if (filtered_rpm >=? Climb_min) && (filtered_rpm <=? Climb_max) then
    (Climb, [Text "Climb: Value is within range."])
  else if (filtered_rpm >=? Cruise_min) && (filtered_rpm <=? Cruise_max) then
    (Cruise, [Text "Cruise: Value is within range."])
  else if (filtered_rpm >=? Caution_min) && (filtered_rpm <=? Caution_max) then
    (Caution, [Text "Caution: Engine is reaching Redline."])
  else if (filtered_rpm >=? RedLine_min) && (filtered_rpm <=? RedLine_max) then
    (RedLine, [Text "Warning: Engine may overheat."])
  else
    (OverLimit, [Text "WARNING: RPM ABOVE Defined RedLine (OverLimit)."]).

(** [rpm_value = (angular_speed_rad_per_sec * 60.0) / (2.0 * k_pi)] *)
Definition rpm_of_angular_speed (angular_speed_rad_per_sec : double) : double :=
  div (mul angular_speed_rad_per_sec d60) (mul d2 k_pi).

(** [EnginePowerModel::update_from_rpm]: all three members are overwritten,
    so the new object is a function of the argument alone. *)
Definition update_from_rpm (angular_speed_rad_per_sec : double)
  : EnginePowerModel * list cout_line :=
  let rpm_value := rpm_of_angular_speed angular_speed_rad_per_sec in
  let filtered := Int.of_long (lround rpm_value) in
  let '(band, out) := classify filtered in
  ({| m_raw_rpm := rpm_value;
      m_filtered_rpm := filtered;
      m_powerband := band |}, out).

Definition filtered_rpm (engine : EnginePowerModel) : Z := m_filtered_rpm engine.
Definition powerband (engine : EnginePowerModel) : EnginePowerBand := m_powerband engine.
Definition isPowerOff (engine : EnginePowerModel) : bool :=
  band_eqb (m_powerband engine) PowerOff.
Definition raw_rpm (engine : EnginePowerModel) : double := m_raw_rpm engine.

(** ** RPM source *)

(** [std::mt19937] seeded from [std::random_device] is an oracle: one call of
    [drive_engine] consumes the variate of [pick_band(rng)] and the variate
    that [rpm_dist(rng)] delivers for the bounds it was built with; the
    object's state is the number of calls made. *)
Record variates : Type := {
  pick_band : double;
  rpm_dist : double -> double -> double
}.

Definition mt19937 : Type := nat -> variates.

Record band_range : Type := {
  rpm_min : double;
  rpm_max : double;
  (** the band named by the comment of the branch *)
  intended : EnginePowerBand
}.

Definition p_005 : double := literal 5 100.
Definition p_020 : double := literal 20 100.
Definition p_045 : double := literal 45 100.
Definition p_080 : double := literal 80 100.
Definition p_092 : double := literal 92 100.
Definition p_098 : double := literal 98 100.

Definition range_below_idle : band_range :=
  {| rpm_min := of_Z 0; rpm_max := of_Z 900; intended := PowerOff |}.
Definition range_idle : band_range :=
  {| rpm_min := of_Z 1000; rpm_max := of_Z 3500; intended := Idle |}.
Definition range_climb : band_range :=
  {| rpm_min := of_Z 3501; rpm_max := of_Z 6000; intended := Climb |}.
Definition range_cruise : band_range :=
  {| rpm_min := of_Z 6001; rpm_max := of_Z 9000; intended := Cruise |}.
Definition range_caution : band_range :=
  {| rpm_min := of_Z 9001; rpm_max := of_Z 9799; intended := Caution |}.
Definition range_redline : band_range :=
  {| rpm_min := of_Z 9800; rpm_max := of_Z 10200; intended := RedLine |}.
Definition range_overlimit : band_range :=
  {| rpm_min := of_Z 10201; rpm_max := of_Z 11000; intended := OverLimit |}.

(** The seven branches of [drive_engine], in source order. *)
Definition generator_table : list band_range :=
  [range_below_idle; range_idle; range_climb; range_cruise;
   range_caution; range_redline; range_overlimit].

Definition choose_range (p : double) : band_range :=
  if ltb p p_005 then range_below_idle
  else if ltb p p_020 then range_idle
  else if ltb p p_045 then range_climb
  else if ltb p p_080 then range_cruise
  else if ltb p p_092 then range_caution
  else if ltb p p_098 then range_redline
  else range_overlimit.

(** What [std::uniform_real_distribution<double>(a, b)] guarantees of its
    variate [x]: a well-formed [double] between [a] and [b]. *)
Definition in_range (r : band_range) (x : double) : bool :=
  valid x && leb (rpm_min r) x && leb x (rpm_max r).

Definition variates_ok (v : variates) : bool :=
  let r := choose_range (pick_band v) in
  in_range r (rpm_dist v (rpm_min r) (rpm_max r)).

(** [omega = (rpm * 2.0 * pi) / 60.0] *)
Definition omega_of_rpm (rpm : double) : double :=
  div (mul (mul rpm d2) k_pi) d60.

Definition drive_engine (v : variates) : EnginePowerModel * list cout_line :=
  let p := pick_band v in
  let r := choose_range p in
  let rpm := rpm_dist v (rpm_min r) (rpm_max r) in
  let omega := omega_of_rpm rpm in
  let '(engine, out) := update_from_rpm omega in
  (engine, out ++ [DroveEngine (filtered_rpm engine) omega]).

(** ** Diagnostic status *)

Inductive Diagnostic_Status : Type :=
  | SystemSuccessful
  | SystemMaintenanceRequired
  | SystemCheckSystemFailure.

Record Tachometer_Diagnostic : Type := {
  status_ : Diagnostic_Status;
  message_ : string;
  code_ : Z
}.

Definition Tachometer_Diagnostic_default : Tachometer_Diagnostic :=
  {| status_ := SystemSuccessful;
     message_ := "SYSTEM CHECK: SUCCESSFUL";
     code_ := 0 |}.

Definition successful (msg : string) (code : Z) : Tachometer_Diagnostic :=
  {| status_ := SystemSuccessful; message_ := msg; code_ := code |}.

Definition maintenance (msg : string) (code : Z) : Tachometer_Diagnostic :=
  {| status_ := SystemMaintenanceRequired; message_ := msg; code_ := code |}.

Definition failure (msg : string) (code : Z) : Tachometer_Diagnostic :=
  {| status_ := SystemCheckSystemFailure; message_ := msg; code_ := code |}.

Definition status (d : Tachometer_Diagnostic) : Diagnostic_Status := status_ d.
Definition message (d : Tachometer_Diagnostic) : string := message_ d.
Definition code (d : Tachometer_Diagnostic) : Z := code_ d.

(** The policy at the end of [main]. *)
Definition diagnose (caution_sec redline_sec : Z) : Tachometer_Diagnostic :=
  let one_minute := 60 in
  let one_hour := 60 * one_minute in
  if redline_sec >? 4 * one_hour then
    failure "SYSTEM CHECK: SYSTEM FAILURE - Excessive time in REDLINE/OVERLIMIT" 2
  else if (redline_sec >? 1 * one_hour) || (caution_sec >? 3 * one_hour) then
    maintenance "SYSTEM CHECK: MAINTENANCE REQUIRED - Heavy use in CAUTION/REDLINE bands" 1
  else
    successful "SYSTEM CHECK: SUCCESSFUL - Engine within expected use profile" 0.

(** ** Flight hours logger *)

Record FlightHours : Type := {
  total_seconds : Z;
  caution_seconds : Z;
  redline_seconds : Z
}.

Definition FlightHours_init : FlightHours :=
  {| total_seconds := 0; caution_seconds := 0; redline_seconds := 0 |}.

(** [int delta = static_cast<int>(std::lround(delta_seconds))] *)
Definition delta_of (delta_seconds : double) : Z :=
  Int.of_long (lround delta_seconds).

Definition flight_log_hours (engine : EnginePowerModel) (delta_seconds : double)
    (fh : FlightHours) : undef FlightHours :=
  let band := powerband engine in
  let delta := delta_of delta_seconds in
  total <- (if negb (band_eqb band PowerOff)
            then Int.add (total_seconds fh) delta
            else Some (total_seconds fh)) ;;
  caution <- (if band_eqb band Caution
              then Int.add (caution_seconds fh) delta
              else Some (caution_seconds fh)) ;;
  redline <- (if band_eqb band RedLine || band_eqb band OverLimit
              then Int.add (redline_seconds fh) delta
              else Some (redline_seconds fh)) ;;
  Some {| total_seconds := total;
          caution_seconds := caution;
          redline_seconds := redline |}.

Definition hours (fh : FlightHours) : Z := Int.div (total_seconds fh) 3600.
Definition minutes (fh : FlightHours) : Z := Int.div (Int.rem (total_seconds fh) 3600) 60.
Definition seconds (fh : FlightHours) : Z := Int.rem (total_seconds fh) 60.
Definition caution_time (fh : FlightHours) : Z := caution_seconds fh.
Definition redline_time (fh : FlightHours) : Z := redline_seconds fh.

(** Lines of [flight_log.csv]; the fields of a data row are kept unformatted. *)
Inductive csv_line : Type :=
  | Header (text : string)
  | Row (time_step : double) (total hours minutes seconds rpm : Z)
        (band : string) (caution redline : Z).

Definition csv_header : csv_line :=
  Header "time_step,total_seconds,hours,minutes,seconds,rpm,band,caution_seconds,redline_seconds".

Definition csv_row (fh : FlightHours) (engine : EnginePowerModel) (time_step : double)
  : csv_line :=
  let rpm := filtered_rpm engine in
  let band := powerband engine in
  Row time_step (total_seconds fh) (hours fh) (minutes fh) (seconds fh) rpm
      (to_string band) (caution_seconds fh) (redline_seconds fh).

(** ** main *)

Record simulation : Type := {
  engine : EnginePowerModel;
  flight_hours : FlightHours;
  rpm_source : nat;          (** variates consumed from the generator *)
  log_file : list csv_line;
  cout : list cout_line
}.

Definition delta_seconds : double := d60.
Definition total_ticks : Z := 50 * 60.

(** The body of the [for] loop at iteration [tick]. *)
Definition tick_body (rng : mt19937) (tick : Z) (sim : simulation) : undef simulation :=
  let '(eng, out) := drive_engine (rng (rpm_source sim)) in
  fh <- flight_log_hours eng delta_seconds (flight_hours sim) ;;
  Some {| engine := eng;
          flight_hours := fh;
          rpm_source := S (rpm_source sim);
          log_file := log_file sim ++ [csv_row fh eng (mul (of_Z tick) delta_seconds)];
          cout := cout sim ++ out |}.

(** [for (int tick = first; tick < first + remaining; ++tick)] *)
Fixpoint tick_loop (rng : mt19937) (remaining : nat) (tick : Z) (sim : simulation)
  : undef simulation :=
  match remaining with
  | O => Some sim
  | S n =>
      sim' <- tick_body rng tick sim ;;
      tick_loop rng n (tick + 1) sim'
  end.

Record outcome : Type := {
  exit_code : Z;
  final : simulation;
  cerr : list string;
  diag : option Tachometer_Diagnostic
}.

Definition simulation_init : simulation :=
  {| engine := EnginePowerModel_init;
     flight_hours := FlightHours_init;
     rpm_source := O;
     log_file := [];
     cout := [] |}.

(** [main]; [log_file_opened] tells whether [std::ofstream] could open
    [flight_log.csv]. *)
Definition main (log_file_opened : bool) (rng : mt19937) : undef outcome :=
  if negb log_file_opened then
    Some {| exit_code := 1;
            final := simulation_init;
            cerr := ["Failed to open flight_log.csv"%string];
            diag := None |}
  else
    let sim0 :=
      {| engine := EnginePowerModel_init;
         flight_hours := FlightHours_init;
         rpm_source := O;
         log_file := [csv_header];
         cout := [] |} in
    sim <- tick_loop rng (Z.to_nat total_ticks) 0 sim0 ;;
    let caution_sec := caution_time (flight_hours sim) in
    let redline_sec := redline_time (flight_hours sim) in
    let d := diagnose caution_sec redline_sec in
    Some {| exit_code := 0;
            final :=
              {| engine := engine sim;
                 flight_hours := flight_hours sim;
                 rpm_source := rpm_source sim;
                 log_file := log_file sim;
                 cout := cout sim ++
                   [DiagnosticLine (message d) (code d);
                    TimesLine caution_sec redline_sec;
                    Text "Simulation Finished. Check flight_log.csv"] |};
            cerr := [];
            diag := Some d |}.

(** ** Vocabulary of the properties *)

(** The bounds of a generator range read as integers: every variate the
    distribution may deliver is a finite [double] between them. *)
Definition range_bounds (r : band_range) (lo hi : Z) : Prop :=
  forall x, in_range r x = true ->
    valid x = true /\ is_finite x = true /\ (IZR lo <= B2R x <= IZR hi)%R.


(** The [time_step] column of a data row. *)
Definition row_time_step (l : csv_line) : option double :=
  match l with
  | Header _ => None
  | Row time_step _ _ _ _ _ _ _ _ => Some time_step
  end.

(** An engine object in a given band, and the constant generator. *)
Definition engine_in (band : EnginePowerBand) (rpm : Z) : EnginePowerModel :=
  {| m_raw_rpm := of_Z rpm; m_filtered_rpm := rpm; m_powerband := band |}.

Definition constant_rng (p rpm : double) : mt19937 :=
  fun _ => {| pick_band := p; rpm_dist := fun _ _ => rpm |}.

(** Counters between 0 and [B]. *)
Definition counters_within (fh : FlightHours) (B : Z) : Prop :=
  0 <= total_seconds fh <= B /\
  0 <= caution_seconds fh <= B /\
  0 <= redline_seconds fh <= B.

(** ** Zones helper *)

(** The thresholds of [class Zones]; its [Idle_min], [Caution_max] and
    [RedLine_max] repeat those of [EnginePowerModel]. *)
Definition Zones_Idle_min : Z := 1000.
Definition Zones_Normal_max : Z := 9000.
Definition Zones_Caution_max : Z := 9799.
Definition Zones_RedLine_max : Z := 10200.

(** [Zones::print_zone_messages] *)
Definition print_zone_messages (rpm : Z) : list cout_line :=
  if rpm <? Zones_Idle_min then [Text "RPM Below Idle"]
  else if rpm <=? Zones_Normal_max then [Text "RPM Within Normal Range"]
  else if rpm <=? Zones_Caution_max then [Text "Caution: High RPM"]
  else [Text "Redline: Potential Engine Damage"].

(** ** Reading the rows of the log *)

Definition row_total (l : csv_line) : Z :=
  match l with
  | Header _ => 0
  | Row _ total _ _ _ _ _ _ _ => total
  end.

Definition row_band (l : csv_line) : string :=
  match l with
  | Header _ => ""
  | Row _ _ _ _ _ _ band _ _ => band
  end.

Definition row_rpm (l : csv_line) : Z :=
  match l with
  | Header _ => 0
  | Row _ _ _ _ _ rpm _ _ _ => rpm
  end.

(** The row names one of [bands] in its band column. *)
Definition row_in (bands : list EnginePowerBand) (l : csv_line) : bool :=
  existsb (fun b => String.eqb (row_band l) (to_string b)) bands.

Definition count_rows (bands : list EnginePowerBand) (rows : list csv_line) : Z :=
  Z.of_nat (List.length (filter (row_in bands) rows)).

Definition running_bands : list EnginePowerBand :=
  [Idle; Climb; Cruise; Caution; RedLine; OverLimit].

(** The columns of a data row agree with one another: the clock columns
    decompose [total_seconds], the band is the one of the rpm, and the time
    in the caution and redline bands is part of the total. *)
Definition row_fields_ok (l : csv_line) : bool :=
  match l with
  | Header _ => false
  | Row _ total h m s rpm band caution redline =>
      (total =? 3600 * h + 60 * m + s) &&
      (0 <=? h) && (0 <=? m) && (m <? 60) && (0 <=? s) && (s <? 60) &&
      String.eqb band (to_string (fst (classify rpm))) &&
      (0 <=? caution) && (0 <=? redline) && (caution + redline <=? total)
  end.

(** The integer a [double] stands for, when it is one. *)
Definition to_Z_exact (x : double) : option Z :=
  match x with
  | S754_zero _ => Some 0
  | S754_finite s m e =>
      match e with
      | Zneg p =>
          if Zpos m mod 2 ^ Zpos p =? 0
          then Some (if s then - (Zpos m / 2 ^ Zpos p) else Zpos m / 2 ^ Zpos p)
          else None
      | _ => Some (if s then - (Zpos m * 2 ^ e) else Zpos m * 2 ^ e)
      end
  | _ => None
  end.

(** * Properties of the binary64 operations *)

(** ** Powers of two *)

Lemma bpow_gt0 e : (0 < bpow e)%R.
Proof. apply powerRZ_lt; lra. Qed.

Lemma bpow_plus a b : bpow (a + b) = (bpow a * bpow b)%R.
Proof. apply powerRZ_add; lra. Qed.

Lemma bpow_opp a : bpow (- a) = (/ bpow a)%R.
Proof. apply powerRZ_neg'. Qed.

Lemma bpow_IZR e : 0 <= e -> bpow e = IZR (2 ^ e).
Proof.
  intros He. destruct e as [|p|p]; [reflexivity| |lia].
  unfold bpow. symmetry. apply (Zpower_pos_powerRZ 2 p).
Qed.

Lemma bpow_0 : bpow 0 = 1%R.
Proof. reflexivity. Qed.

Lemma bpow_1 : bpow 1 = 2%R.
Proof. unfold bpow, powerRZ. change (Pos.to_nat 1) with 1%nat. lra. Qed.

Lemma bpow_m1 : bpow (-1) = (/ 2)%R.
Proof. unfold bpow, powerRZ. change (Pos.to_nat 1) with 1%nat. rewrite pow_1. reflexivity. Qed.

Lemma bpow_ge1 e : 0 <= e -> (1 <= bpow e)%R.
Proof.
  intros He. rewrite (bpow_IZR e He). apply IZR_le.
  assert (0 < 2 ^ e) by (apply Z.pow_pos_nonneg; lia). lia.
Qed.

Lemma bpow_le a b : a <= b -> (bpow a <= bpow b)%R.
Proof.
  intros H. replace b with (a + (b - a)) by ring. rewrite bpow_plus.
  pose proof (bpow_gt0 a). pose proof (bpow_ge1 (b - a) ltac:(lia)). nra.
Qed.

Lemma bpow_lt a b : a < b -> (bpow a < bpow b)%R.
Proof.
  intros H. replace b with (a + 1 + (b - a - 1)) by ring. rewrite !bpow_plus.
  pose proof (bpow_gt0 a). pose proof (bpow_ge1 (b - a - 1) ltac:(lia)).
  rewrite bpow_1. nra.
Qed.

Lemma bpow_cancel a : (bpow a * bpow (- a) = 1)%R.
Proof. rewrite <- bpow_plus, Z.add_opp_diag_r. reflexivity. Qed.

(** ** Binary digits *)

Lemma digits2_pos_bounds m :
  2 ^ (Zpos (digits2_pos m) - 1) <= Zpos m < 2 ^ Zpos (digits2_pos m).
Proof.
  induction m as [m IH|m IH|]; cbn [digits2_pos].
  - rewrite Pos2Z.inj_succ, Z.pow_succ_r by lia.
    replace (Z.succ (Zpos (digits2_pos m)) - 1) with (Z.succ (Zpos (digits2_pos m) - 1)) by lia.
    rewrite Z.pow_succ_r by lia. lia.
  - rewrite Pos2Z.inj_succ, Z.pow_succ_r by lia.
    replace (Z.succ (Zpos (digits2_pos m)) - 1) with (Z.succ (Zpos (digits2_pos m) - 1)) by lia.
    rewrite Z.pow_succ_r by lia. lia.
  - cbn. lia.
Qed.

Lemma Zdigits2_bounds m : 0 <= m ->
  0 <= Zdigits2 m /\ m < 2 ^ Zdigits2 m /\ (0 < m -> 2 ^ (Zdigits2 m - 1) <= m).
Proof.
  intros Hm. destruct m as [|p|p]; [cbn; lia| |lia].
  cbn [Zdigits2]. pose proof (digits2_pos_bounds p). lia.
Qed.

(** ** Shifting a mantissa right keeps track of what is lost *)

Lemma loc_ok_bounds m l x : loc_ok m l x -> (IZR m <= x < IZR m + 1)%R.
Proof. destruct l as [|[| |]]; cbn; lra. Qed.

Lemma IZR_xO p : IZR (Zpos p~0) = (2 * IZR (Zpos p))%R.
Proof. rewrite Pos2Z.inj_xO, mult_IZR. reflexivity. Qed.

Lemma IZR_xI p : IZR (Zpos p~1) = (2 * IZR (Zpos p) + 1)%R.
Proof. rewrite Pos2Z.inj_xI, plus_IZR, mult_IZR. reflexivity. Qed.

Lemma shr_1_ok mrs x : rec_ok mrs x -> rec_ok (shr_1 mrs) (x / 2).
Proof.
  destruct mrs as [m r s]. unfold rec_ok. cbn [shr_m]. intros [Hm H].
  destruct m as [|p|p]; [| |lia].
  - destruct r, s; cbn in *; split; try lia; lra.
  - destruct p as [p|p|].
    + pose proof (IZR_xI p) as E.
      destruct r, s; cbn [shr_1 orb shr_m loc_of_shr_record loc_ok] in *;
        (split; [lia|lra]).
    + pose proof (IZR_xO p) as E.
      destruct r, s; cbn [shr_1 orb shr_m loc_of_shr_record loc_ok] in *;
        (split; [lia|lra]).
    + destruct r, s; cbn [shr_1 orb shr_m loc_of_shr_record loc_ok] in *;
        (split; [lia|lra]).
Qed.

Lemma iter_shr_1_ok p : forall mrs x,
  rec_ok mrs x -> rec_ok (iter_pos shr_1 p mrs) (x * bpow (- Zpos p)).
Proof.
  induction p as [p IH|p IH|]; intros mrs x H; cbn [iter_pos].
  - apply shr_1_ok in H. apply IH in H. apply IH in H.
    replace (x * bpow (- Zpos p~1))%R with (x / 2 * bpow (- Zpos p) * bpow (- Zpos p))%R; [exact H|].
    replace (- Zpos p~1) with (-1 + (- Zpos p + - Zpos p)) by lia.
    rewrite !bpow_plus, bpow_m1. field.
  - apply IH in H. apply IH in H.
    replace (x * bpow (- Zpos p~0))%R with (x * bpow (- Zpos p) * bpow (- Zpos p))%R; [exact H|].
    replace (- Zpos p~0) with (- Zpos p + - Zpos p) by lia.
    rewrite !bpow_plus. ring.
  - apply shr_1_ok in H. cbn [Z.opp]. rewrite bpow_m1. exact H.
Qed.

Lemma shr_ok mrs e n x : 0 <= n -> rec_ok mrs x ->
  snd (shr mrs e n) = e + n /\ rec_ok (fst (shr mrs e n)) (x * bpow (- n)).
Proof.
  intros Hn H. destruct n as [|p|p]; [| |lia]; cbn [shr fst snd].
  - split; [lia|]. cbn [Z.opp]. rewrite bpow_0, Rmult_1_r. exact H.
  - split; [reflexivity|]. apply iter_shr_1_ok, H.
Qed.

Lemma rec_of_loc_ok m l x : 0 <= m -> loc_ok m l x -> rec_ok (shr_record_of_loc m l) x.
Proof.
  intros Hm H. unfold rec_ok. destruct l as [|[| |]]; cbn; auto.
Qed.

(** ** Rounding to nearest even *)

Lemma round_nearest_even_ok m l x : loc_ok m l x ->
  let m' := round_nearest_even m l in
  m <= m' <= m + 1 /\ (Rabs (IZR m' - x) <= 1 / 2)%R.
Proof.
  intros H. cbn zeta. destruct l as [|[| |]]; cbn [round_nearest_even loc_ok] in *.
  - subst. split; [lia|]. replace (IZR m - IZR m)%R with 0%R by ring. rewrite Rabs_R0. lra.
  - destruct (Z.even m); rewrite ?plus_IZR; subst x; split; try lia;
      apply Rabs_le; lra.
  - split; [lia|]. apply Rabs_le; lra.
  - rewrite plus_IZR. split; [lia|]. apply Rabs_le; lra.
Qed.

Lemma fexp_eq e : fexp 53 1024 e = Z.max (e - 53) (-1074).
Proof. reflexivity. Qed.

Lemma Zdigits2_le m k : 0 <= m -> 0 <= k -> m < 2 ^ k -> Zdigits2 m <= k.
Proof.
  intros Hm Hk H. destruct (Z.eq_dec m 0) as [->|Hn]; [cbn; lia|].
  destruct (Zdigits2_bounds m Hm) as (Hd & _ & Hlo). specialize (Hlo ltac:(lia)).
  destruct (Z_le_gt_dec (Zdigits2 m) k) as [|Hgt]; [assumption|exfalso].
  assert (2 ^ k <= 2 ^ (Zdigits2 m - 1)) by (apply Z.pow_le_mono_r; lia). lia.
Qed.

Lemma Zdigits2_ge m k : 0 <= m -> 0 <= k -> 2 ^ k <= m -> k + 1 <= Zdigits2 m.
Proof.
  intros Hm Hk H. destruct (Zdigits2_bounds m Hm) as (Hd & Hhi & _).
  destruct (Z_le_gt_dec (k + 1) (Zdigits2 m)) as [|Hgt]; [assumption|exfalso].
  assert (2 ^ Zdigits2 m <= 2 ^ k) by (apply Z.pow_le_mono_r; lia). lia.
Qed.

(** After rounding, the mantissa has at most 53 bits or is exactly 2^53;
    the second shift renormalises it without loss. *)
Lemma second_round s m2 e1 :
  0 <= m2 <= 2 ^ 53 -> -1074 <= e1 <= 970 ->
  (e1 = -1074 \/ 2 ^ 52 <= m2) ->
  exists m' e',
    (let '(mrs'', e'') := shr_fexp 53 1024 m2 e1 loc_Exact in
     match shr_m mrs'' with
     | Z0 => S754_zero s
     | Zpos m => if Z.leb e'' (1024 - 53) then S754_finite s m e'' else S754_infinity s
     | _ => S754_nan
     end) = mk_float s m' e' /\
    0 <= m' /\
    (0 < m' -> bounded 53 1024 (Z.to_pos m') e' = true) /\
    (IZR m' * bpow e' = IZR m2 * bpow e1)%R.
Proof.
  intros Hm He Hn. unfold shr_fexp. rewrite fexp_eq.
  destruct (Z.eq_dec m2 (2 ^ 53)) as [->|Hne].
  - (* the rounded mantissa carried into a 54th bit *)
    exists (2 ^ 52), (e1 + 1).
    change (Zdigits2 (2 ^ 53)) with 54.
    replace (Z.max (54 + e1 - 53) (-1074) - e1) with 1 by lia.
    cbn [shr shr_record_of_loc iter_pos]. 
    change (shr_m (shr_1 {| shr_m := 2 ^ 53; shr_r := false; shr_s := false |})) with (2 ^ 52).
    change (2 ^ 52) with 4503599627370496 at 1. cbv iota.
    replace (e1 + 1 <=? 1024 - 53) with true by (symmetry; apply Z.leb_le; lia).
    split; [reflexivity|]. split; [lia|]. split.
    + intros _. unfold bounded, canonical_mantissa. rewrite fexp_eq.
      change (Z.to_pos (2 ^ 52)) with 4503599627370496%positive.
      change (Z.pos (digits2_pos 4503599627370496)) with 53.
      apply andb_true_intro. split; [apply Z.eqb_eq|apply Z.leb_le]; lia.
    + rewrite bpow_plus, bpow_1. change (2 ^ 53) with (2 * 2 ^ 52). rewrite mult_IZR. ring.
  - exists m2, e1.
    assert (Hlt : m2 < 2 ^ 53) by lia.
    assert (Hd : Zdigits2 m2 <= 53) by (apply Zdigits2_le; lia).
    assert (Hd0 : 0 <= Zdigits2 m2) by (apply Zdigits2_bounds; lia).
    assert (Hsh : Z.max (Zdigits2 m2 + e1 - 53) (-1074) - e1 <= 0) by lia.
    assert (Hshr : forall mrs, shr mrs e1 (Z.max (Zdigits2 m2 + e1 - 53) (-1074) - e1) = (mrs, e1)).
    { intros mrs. destruct (Z.max (Zdigits2 m2 + e1 - 53) (-1074) - e1); try reflexivity; lia. }
    rewrite Hshr. cbn [shr_record_of_loc shr_m].
    split; [|split; [lia|split; [|reflexivity]]].
    + destruct m2 as [|p|p]; [reflexivity| |lia]. cbn [mk_float].
      replace (e1 <=? 1024 - 53) with true by (symmetry; apply Z.leb_le; lia). reflexivity.
    + intros Hpos. destruct m2 as [|p|p]; [lia| |lia]. cbn [Z.to_pos].
      unfold bounded, canonical_mantissa. rewrite fexp_eq. cbn [Zdigits2] in *.
      apply andb_true_intro. split; [apply Z.eqb_eq|apply Z.leb_le; lia].
      destruct Hn as [->|Hn]; [lia|].
      assert (53 <= Z.pos (digits2_pos p)) by (apply (Zdigits2_ge (Zpos p) 52); lia). lia.
Qed.

Lemma IZR_lt_bpow m k : 0 <= k -> (IZR m < bpow k)%R -> m < 2 ^ k.
Proof. intros Hk H. rewrite (bpow_IZR k Hk) in H. apply lt_IZR, H. Qed.

Lemma bpow_le_IZR m k : 0 <= k -> (bpow k < IZR m + 1)%R -> 2 ^ k <= m.
Proof.
  intros Hk H. rewrite (bpow_IZR k Hk), <- plus_IZR in H. apply lt_IZR in H. lia.
Qed.

(** [binary_round_aux] returns a well-formed number within half a unit in
    the last place of the value [v] that [m], [e] and [l] stand for. *)
Lemma binary_round_aux_spec s m e l v :
  0 <= m -> loc_ok m l (v * bpow (- e)) ->
  e <= fexp 53 1024 (Zdigits2 m + e) ->
  (v < bpow 1023)%R ->
  exists m' e',
    binary_round_aux 53 1024 s m e l = mk_float s m' e' /\
    0 <= m' /\
    (0 < m' -> bounded 53 1024 (Z.to_pos m') e' = true) /\
    (Rabs (IZR m' * bpow e' - v) <= bpow (-53) * v + bpow (-1075))%R.
Proof.
  intros Hm Hl Hn Hv.
  unfold binary_round_aux. unfold shr_fexp at 1.
  set (d := Zdigits2 m) in *. rewrite fexp_eq in Hn |- *.
  set (e1 := Z.max (d + e - 53) (-1074)) in *.
  destruct (Zdigits2_bounds m Hm) as (Hd0 & Hdhi & Hdlo). fold d in Hd0, Hdhi, Hdlo.
  destruct (shr_ok (shr_record_of_loc m l) e (e1 - e) _ ltac:(lia) (rec_of_loc_ok _ _ _ Hm Hl))
    as [He1 [Hm1 Hl1]].
  destruct (shr (shr_record_of_loc m l) e (e1 - e)) as [mrs1 e1'].
  cbn [fst snd] in He1, Hm1, Hl1. replace (e + (e1 - e)) with e1 in He1 by ring. subst e1'.
  set (m1 := shr_m mrs1) in *. set (l1 := loc_of_shr_record mrs1) in *.
  set (X := (v * bpow (- e1))%R).
  assert (HX : (v * bpow (- e) * bpow (- (e1 - e)))%R = X).
  { unfold X. rewrite Rmult_assoc, <- bpow_plus. f_equal. f_equal. ring. }
  rewrite HX in Hl1.
  assert (Hv_eq : v = (X * bpow e1)%R).
  { unfold X. rewrite Rmult_assoc, (Rmult_comm (bpow (- e1))), bpow_cancel. ring. }
  pose proof (loc_ok_bounds _ _ _ Hl) as Hb.
  pose proof (loc_ok_bounds _ _ _ Hl1) as Hb1.
  pose proof (round_nearest_even_ok _ _ _ Hl1) as [Hm2 Herr]. cbn zeta in Hm2, Herr.
  set (m2 := round_nearest_even m1 l1) in *.
  (* the shifted value is below 2^53 *)
  assert (HXhi : (X < bpow 53)%R).
  { assert (Hve : (v * bpow (- e) < bpow d)%R).
    { rewrite (bpow_IZR d Hd0). apply Rlt_le_trans with (IZR m + 1)%R; [lra|].
      rewrite <- plus_IZR. apply IZR_le. lia. }
    assert (X = v * bpow (- e) * bpow (e - e1))%R as ->.
    { rewrite <- HX. f_equal. f_equal. ring. }
    apply Rlt_le_trans with (bpow d * bpow (e - e1))%R.
    - apply Rmult_lt_compat_r; [apply bpow_gt0|exact Hve].
    - rewrite <- bpow_plus. apply bpow_le. lia. }
  assert (Hm1hi : m1 < 2 ^ 53) by (apply IZR_lt_bpow; [lia|lra]).
  (* in the normal range the shifted value is at least 2^52 *)
  assert (Hnorm : e1 = -1074 \/ (2 ^ 52 <= m1 /\ (bpow 52 <= X)%R /\ e1 <= 970)).
  { destruct (Z.eq_dec e1 (-1074)) as [|Hne]; [left; assumption|right].
    assert (He1 : e1 = d + e - 53) by lia.
    assert (Hmpos : 0 < m).
    { destruct (Z.eq_dec m 0) as [E|]; [|lia]. subst m. change d with 0 in *. lia. }
    specialize (Hdlo Hmpos).
    assert (Hlo : (bpow (d - 1) <= v * bpow (- e))%R).
    { rewrite (bpow_IZR (d - 1)) by lia. apply Rle_trans with (IZR m); [apply IZR_le; lia|lra]. }
    assert (HXlo : (bpow 52 <= X)%R).
    { assert (X = v * bpow (- e) * bpow (e - e1))%R as ->.
      { rewrite <- HX. f_equal. f_equal. ring. }
      replace 52 with (d - 1 + (e - e1)) by lia. rewrite bpow_plus.
      apply Rmult_le_compat_r; [apply Rlt_le, bpow_gt0|exact Hlo]. }
    split; [apply bpow_le_IZR; [lia|lra]|]. split; [exact HXlo|].
    (* no overflow *)
    assert (Hlt : (bpow (52 + e1) < bpow 1023)%R).
    { apply Rle_lt_trans with v; [|exact Hv]. rewrite Hv_eq, bpow_plus.
      apply Rmult_le_compat_r; [apply Rlt_le, bpow_gt0|exact HXlo]. }
    destruct (Z_le_gt_dec e1 970) as [|Hgt]; [assumption|exfalso].
    assert (bpow 1023 <= bpow (52 + e1))%R by (apply bpow_le; lia). lra. }
  destruct (second_round s m2 e1) as (m' & e' & Hres & Hm'0 & Hbnd & Hval).
  { lia. }
  { destruct Hnorm as [->|(_ & _ & ?)]; lia. }
  { destruct Hnorm as [?|(? & _ & _)]; [left; assumption|right; lia]. }
  exists m', e'. split; [exact Hres|]. split; [exact Hm'0|]. split; [exact Hbnd|].
  rewrite Hval, Hv_eq.
  replace (IZR m2 * bpow e1 - X * bpow e1)%R with ((IZR m2 - X) * bpow e1)%R by ring.
  rewrite Rabs_mult, (Rabs_pos_eq (bpow e1)) by (apply Rlt_le, bpow_gt0).
  pose proof (bpow_gt0 e1) as Hp. pose proof (bpow_gt0 (-1075)) as Hq.
  assert (HX0 : (0 <= X)%R).
  { apply Rle_trans with (IZR m1); [apply IZR_le; exact Hm1|lra]. }
  destruct Hnorm as [E|(_ & HXlo & _)].
  - rewrite E in *. replace (-1074) with (-1075 + 1) by lia.
    rewrite bpow_plus, bpow_1.
    assert (0 <= bpow (-53) * (X * (bpow (-1075) * 2)))%R.
    { pose proof (bpow_gt0 (-53)). apply Rmult_le_pos; [lra|]. apply Rmult_le_pos; lra. }
    pose proof (Rabs_pos (IZR m2 - X)). nra.
  - assert (E53 : (bpow (-53) * bpow 52 = / 2)%R).
    { rewrite <- bpow_plus. change (-53 + 52) with (-1). apply bpow_m1. }
    assert ((/ 2) * bpow e1 <= bpow (-53) * (X * bpow e1))%R.
    { rewrite <- E53. rewrite <- Rmult_assoc. apply Rmult_le_compat_r; [lra|].
      apply Rmult_le_compat_l; [apply Rlt_le, bpow_gt0|exact HXlo]. }
    pose proof (Rabs_pos (IZR m2 - X)). nra.
Qed.

Lemma B2R_mk_float s m e : 0 <= m -> B2R (mk_float s m e) = (sgn s * (IZR m * bpow e))%R.
Proof.
  intros Hm. destruct m as [|p|p]; [| |lia]; cbn [mk_float B2R].
  - unfold sgn. destruct s; ring.
  - reflexivity.
Qed.

Lemma mk_float_finite s m e : 0 <= m -> is_finite (mk_float s m e) = true.
Proof. intros Hm. destruct m; [reflexivity|reflexivity|lia]. Qed.

Lemma mk_float_valid s m e :
  0 <= m -> (0 < m -> bounded 53 1024 (Z.to_pos m) e = true) ->
  valid (mk_float s m e) = true.
Proof.
  intros Hm Hb. destruct m as [|p|p]; [reflexivity| |lia].
  cbn [mk_float valid valid_binary]. apply Hb. lia.
Qed.

Lemma sgn_xorb a b : sgn (xorb a b) = (sgn a * sgn b)%R.
Proof. destruct a, b; unfold sgn; cbn; ring. Qed.

Lemma Rabs_sgn s x : Rabs (sgn s * x) = Rabs x.
Proof.
  destruct s; unfold sgn.
  - replace (-1 * x)%R with (- x)%R by ring. apply Rabs_Ropp.
  - rewrite Rmult_1_l. reflexivity.
Qed.

(** What [bounded] says about a mantissa and its exponent. *)
Lemma bounded_inv m e : bounded 53 1024 m e = true ->
  1 <= Zpos (digits2_pos m) <= 53 /\ -1074 <= e <= 971 /\
  (Zpos (digits2_pos m) = 53 \/ e = -1074).
Proof.
  unfold bounded, canonical_mantissa. rewrite fexp_eq. intros H.
  apply andb_prop in H. destruct H as [H1 H2].
  apply Z.eqb_eq in H1. apply Z.leb_le in H2.
  change (1024 - 53) with 971 in H2. lia.
Qed.

Lemma rounds_to_zero s : rounds_to 0 (S754_zero s).
Proof.
  repeat split; cbn [B2R]; try lra.
  rewrite Rminus_diag, Rabs_R0, Rmult_0_r, Rplus_0_l.
  apply Rlt_le, bpow_gt0.
Qed.

Lemma rounds_to_aux s m e l v :
  0 <= m -> loc_ok m l (v * bpow (- e)) ->
  e <= fexp 53 1024 (Zdigits2 m + e) ->
  (0 < v < bpow 1023)%R ->
  rounds_to (sgn s * v) (binary_round_aux 53 1024 s m e l).
Proof.
  intros Hm Hl He [Hv0' Hv]. assert (Hv0 : (0 <= v)%R) by lra.
  destruct (binary_round_aux_spec s m e l v Hm Hl He Hv) as (m' & e' & -> & Hm' & Hb & Herr).
  split; [apply mk_float_finite, Hm'|]. split; [apply mk_float_valid; assumption|].
  rewrite (B2R_mk_float s m' e' Hm'), <- Rmult_minus_distr_l, !Rabs_sgn.
  rewrite (Rabs_pos_eq v Hv0). split; [exact Herr|].
  assert (Hr : (0 <= IZR m' * bpow e')%R).
  { apply Rmult_le_pos; [apply IZR_le; lia|apply Rlt_le, bpow_gt0]. }
  unfold sgn. destruct s; split; intros; nra.
Qed.

(** ** Multiplication and division are correctly rounded *)

Theorem mul_correct x y :
  is_finite x = true -> valid x = true ->
  is_finite y = true -> valid y = true ->
  (Rabs (B2R x * B2R y) < bpow 1023)%R ->
  rounds_to (B2R x * B2R y) (mul x y).
Proof.
  intros Fx Vx Fy Vy Hv. unfold mul.
  destruct x as [sx|sx| |sx mx ex]; try discriminate;
    destruct y as [sy|sy| |sy my ey]; try discriminate; cbn [SFmul B2R];
    rewrite ?Rmult_0_l, ?Rmult_0_r; try apply rounds_to_zero.
  cbn [valid valid_binary] in Vx, Vy.
  destruct (bounded_inv _ _ Vx) as (Hdx & Hex & Hcx).
  destruct (bounded_inv _ _ Vy) as (Hdy & Hey & Hcy).
  set (v := (IZR (Zpos (mx * my)) * bpow (ex + ey))%R).
  assert (Hprod : (sgn sx * (IZR (Z.pos mx) * bpow ex) *
                   (sgn sy * (IZR (Z.pos my) * bpow ey)))%R
                  = (sgn (xorb sx sy) * v)%R).
  { unfold v. rewrite sgn_xorb, bpow_plus, Pos2Z.inj_mul, mult_IZR. ring. }
  cbn [B2R] in Hv. rewrite Hprod in Hv |- *. rewrite Rabs_sgn in Hv.
  assert (Hv0 : (0 < v)%R).
  { unfold v. apply Rmult_lt_0_compat; [apply IZR_lt; lia|apply bpow_gt0]. }
  rewrite (Rabs_pos_eq v (Rlt_le _ _ Hv0)) in Hv.
  apply rounds_to_aux; [lia| | |lra].
  - cbn [loc_ok]. unfold v. rewrite Rmult_assoc, bpow_cancel. ring.
  - rewrite fexp_eq. cbn [Zdigits2].
    pose proof (digits2_pos_bounds mx) as Bx. pose proof (digits2_pos_bounds my) as By.
    assert (Hd : Zpos (digits2_pos mx) + Zpos (digits2_pos my) - 1 <= Zpos (digits2_pos (mx * my))).
    { replace (Zpos (digits2_pos mx) + Zpos (digits2_pos my) - 1)
        with ((Zpos (digits2_pos mx) - 1 + (Zpos (digits2_pos my) - 1)) + 1) by ring.
      apply (Zdigits2_ge (Zpos (mx * my))); [lia|lia|].
      rewrite Z.pow_add_r, Pos2Z.inj_mul by lia.
      apply Z.mul_le_mono_nonneg; try lia;
        apply Z.pow_nonneg; lia. }
    lia.
Qed.

Lemma new_location_ok n q r :
  0 < n -> 0 <= r < n ->
  loc_ok q (new_location n r) (IZR q + IZR r / IZR n).
Proof.
  intros Hn Hr.
  assert (HnR : (0 < IZR n)%R) by (apply IZR_lt; lia).
  assert (Hhalf : forall c, (2 * r ?= n) = c ->
     match c with
     | Lt => (IZR r / IZR n < 1 / 2)%R
     | Eq => (IZR r / IZR n = 1 / 2)%R
     | Gt => (1 / 2 < IZR r / IZR n)%R
     end).
  { intros c Hc. destruct c.
    - apply Z.compare_eq in Hc. rewrite <- Hc, mult_IZR.
      assert (0 < IZR r)%R by (apply IZR_lt; lia). field. lra.
    - rewrite Z.compare_lt_iff in Hc. apply IZR_lt in Hc. rewrite mult_IZR in Hc.
      apply Rmult_lt_reg_r with (IZR n); [exact HnR|]. unfold Rdiv.
      rewrite Rmult_assoc, Rinv_l by lra. lra.
    - rewrite Z.compare_gt_iff in Hc. apply IZR_lt in Hc. rewrite mult_IZR in Hc.
      apply Rmult_lt_reg_r with (IZR n); [exact HnR|]. unfold Rdiv.
      rewrite (Rmult_assoc (IZR r)), Rinv_l by lra. lra. }
  assert (Hlt1 : (IZR r / IZR n < 1)%R).
  { apply Rmult_lt_reg_r with (IZR n); [exact HnR|]. unfold Rdiv.
    rewrite Rmult_assoc, Rinv_l by lra. rewrite Rmult_1_r, Rmult_1_l. apply IZR_lt. lia. }
  assert (Hgt0 : r <> 0 -> (0 < IZR r / IZR n)%R).
  { intros Hr0. apply Rdiv_lt_0_compat; [apply IZR_lt; lia|exact HnR]. }
  unfold new_location.
  destruct (Z.even n) eqn:Ev; unfold new_location_even, new_location_odd;
    destruct (Z.eqb_spec r 0) as [Hr0|Hr0];
    try (subst r; cbn [loc_ok]; unfold Rdiv; ring); specialize (Hgt0 Hr0).
  - specialize (Hhalf _ eq_refl). destruct (2 * r ?= n); cbn [loc_ok]; lra.
  - assert (Hodd : 2 * r <> n).
    { intros E. rewrite <- E, Z.even_mul in Ev. discriminate. }
    destruct (2 * r + 1 ?= n) eqn:Hc.
    + apply Z.compare_eq in Hc.
      assert (Hc' : (2 * r ?= n) = Lt) by (apply Z.compare_lt_iff; lia).
      specialize (Hhalf _ Hc'). cbn [loc_ok]. cbn in Hhalf. lra.
    + rewrite Z.compare_lt_iff in Hc.
      assert (Hc' : (2 * r ?= n) = Lt) by (apply Z.compare_lt_iff; lia).
      specialize (Hhalf _ Hc'). cbn [loc_ok]. cbn in Hhalf. lra.
    + rewrite Z.compare_gt_iff in Hc.
      assert (Hc' : (2 * r ?= n) = Gt) by (apply Z.compare_gt_iff; lia).
      specialize (Hhalf _ Hc'). cbn [loc_ok]. cbn in Hhalf. lra.
Qed.

Theorem div_correct x y :
  is_finite x = true -> valid x = true ->
  is_nonzero y = true -> valid y = true ->
  (Rabs (B2R x / B2R y) < bpow 1023)%R ->
  rounds_to (B2R x / B2R y) (div x y).
Proof.
  intros Fx Vx Ny Vy Hv. unfold div.
  destruct y as [sy|sy| |sy my ey]; try discriminate. clear Ny.
  assert (HmyR : (0 < IZR (Zpos my))%R) by (apply IZR_lt; lia).
  destruct x as [sx|sx| |sx mx ex]; try discriminate; cbn [SFdiv B2R].
  { unfold Rdiv. rewrite Rmult_0_l. apply rounds_to_zero. }
  cbn [valid valid_binary] in Vx, Vy.
  destruct (bounded_inv _ _ Vx) as (Hdx & Hex & Hcx).
  destruct (bounded_inv _ _ Vy) as (Hdy & Hey & Hcy).
  unfold SFdiv_core_binary. cbn [Zdigits2]. rewrite fexp_eq.
  set (d1 := Zpos (digits2_pos mx)) in *. set (d2 := Zpos (digits2_pos my)) in *.
  set (e' := Z.min (Z.max (d1 + ex - (d2 + ey) - 53) (-1074)) (ex - ey)).
  set (sh := ex - ey - e').
  assert (Hsh : 0 <= sh) by (unfold sh, e'; lia).
  set (m' := match sh with Zpos _ => Z.shiftl (Zpos mx) sh | Z0 => Zpos mx | Zneg _ => 0 end).
  assert (Hm' : m' = Zpos mx * 2 ^ sh).
  { unfold m'. destruct sh as [|p|p]; [cbn; lia| |lia]. apply Z.shiftl_mul_pow2. lia. }
  clearbody m'.
  pose proof (Z_div_mod m' (Zpos my) ltac:(lia)) as Hdm.
  destruct (Z.div_eucl m' (Zpos my)) as [q r]. destruct Hdm as [Hdm Hr].
  set (v := (IZR (Zpos mx) / IZR (Zpos my) * bpow (ex - ey))%R).
  assert (Hquot : (sgn sx * (IZR (Z.pos mx) * bpow ex) /
                   (sgn sy * (IZR (Z.pos my) * bpow ey)))%R
                  = (sgn (xorb sx sy) * v)%R).
  { unfold v. rewrite sgn_xorb. unfold Z.sub. rewrite bpow_plus, bpow_opp.
    pose proof (bpow_gt0 ey) as Hp.
    destruct sx, sy; unfold sgn; field; lra. }
  cbn [B2R] in Hv. rewrite Hquot in Hv |- *. rewrite Rabs_sgn in Hv.
  assert (Hv0 : (0 < v)%R).
  { unfold v. apply Rmult_lt_0_compat; [|apply bpow_gt0].
    apply Rdiv_lt_0_compat; [apply IZR_lt; lia|exact HmyR]. }
  rewrite (Rabs_pos_eq v (Rlt_le _ _ Hv0)) in Hv.
  assert (Hq0 : 0 <= q) by nia.
  assert (Hscaled : (v * bpow (- e') = IZR q + IZR r / IZR (Zpos my))%R).
  { unfold v. rewrite Rmult_assoc, <- bpow_plus.
    replace (ex - ey + - e') with sh by (unfold sh; ring).
    rewrite (bpow_IZR sh Hsh).
    assert (E : (IZR (Zpos mx) * IZR (2 ^ sh) = IZR (Zpos my) * IZR q + IZR r)%R).
    { rewrite <- !mult_IZR, <- plus_IZR. f_equal. lia. }
    field_simplify_eq; [|lra]. lra. }
  apply rounds_to_aux; [exact Hq0| | |lra].
  - rewrite Hscaled. apply new_location_ok; lia.
  - rewrite fexp_eq.
    destruct (Z_le_gt_dec e' (-1074)) as [|Hgt]; [lia|].
    assert (Hs53 : 53 + d2 - d1 <= sh) by (unfold sh, e' in *; lia).
    pose proof (digits2_pos_bounds mx) as Bx. pose proof (digits2_pos_bounds my) as By.
    fold d1 in Bx. fold d2 in By.
    assert (Hbig : 2 ^ 52 * Zpos my <= m').
    { rewrite Hm'.
      apply Z.le_trans with (2 ^ 52 * 2 ^ d2); [apply Z.mul_le_mono_nonneg_l; lia|].
      apply Z.le_trans with (2 ^ (d1 - 1) * 2 ^ sh); [|apply Z.mul_le_mono_nonneg_r; [apply Z.pow_nonneg|]; lia].
      rewrite <- !Z.pow_add_r by lia. apply Z.pow_le_mono_r; lia. }
    assert (Hq52 : 2 ^ 52 <= q) by nia.
    assert (53 <= Zdigits2 q) by (apply (Zdigits2_ge q 52); lia).
    lia.
Qed.

(** ** The constants of the program *)

Lemma bpow_neg p : bpow (Zneg p) = (/ IZR (2 ^ Zpos p))%R.
Proof. change (Zneg p) with (- Zpos p). rewrite bpow_opp, bpow_IZR by lia. reflexivity. Qed.

Lemma u_val : bpow (-53) = (/ 9007199254740992)%R.
Proof. apply (bpow_neg 53). Qed.

Lemma eta_bound : (bpow (-1075) <= / 18446744073709551616)%R.
Proof.
  apply Rle_trans with (bpow (-64)); [apply bpow_le; lia|].
  right. apply (bpow_neg 64).
Qed.

Lemma bpow_1023_big : (18446744073709551616 <= bpow 1023)%R.
Proof.
  apply Rle_trans with (bpow 64); [|apply bpow_le; lia].
  right. symmetry. apply (bpow_IZR 64). lia.
Qed.

Lemma B2R_finite_neg s m p :
  B2R (S754_finite s m (Zneg p)) = (sgn s * (IZR (Zpos m) / IZR (2 ^ Zpos p)))%R.
Proof. cbn [B2R]. rewrite bpow_neg. reflexivity. Qed.

Ltac b2r_const E :=
  rewrite E, B2R_finite_neg; unfold sgn;
  match goal with
  | |- context [IZR (2 ^ ?k)] =>
      let v := eval vm_compute in (2 ^ k) in change (2 ^ k) with v
  end; lra.

Lemma d2_eq : d2 = S754_finite false 4503599627370496 (-51).
Proof. vm_compute. reflexivity. Qed.

Lemma d60_eq : d60 = S754_finite false 8444249301319680 (-47).
Proof. vm_compute. reflexivity. Qed.

(** [k_pi] is the binary64 number 0x400921FB54442D18. *)
Lemma k_pi_eq : k_pi = S754_finite false 7074237752028440 (-51).
Proof. vm_compute. reflexivity. Qed.

Lemma two_pi_eq : mul d2 k_pi = S754_finite false 7074237752028440 (-50).
Proof. vm_compute. reflexivity. Qed.

Lemma B2R_d2 : B2R d2 = 2%R.
Proof. b2r_const d2_eq. Qed.

Lemma B2R_d60 : B2R d60 = 60%R.
Proof. b2r_const d60_eq. Qed.

Lemma B2R_k_pi : B2R k_pi = (7074237752028440 / 2251799813685248)%R.
Proof. b2r_const k_pi_eq. Qed.

(** [k_pi] is within half a unit in the last place of the decimal literal. *)
Lemma k_pi_literal :
  (Rabs (B2R k_pi - 3141592653589793 / 1000000000000000) <= / 4503599627370496)%R.
Proof. rewrite B2R_k_pi. apply Rabs_le. lra. Qed.

Lemma B2R_two_pi : B2R (mul d2 k_pi) = (7074237752028440 / 1125899906842624)%R.
Proof. b2r_const two_pi_eq. Qed.

Lemma consts_ok :
  is_finite d2 = true /\ valid d2 = true /\
  is_finite k_pi = true /\ valid k_pi = true /\
  is_nonzero d60 = true /\ is_finite d60 = true /\ valid d60 = true /\
  is_nonzero (mul d2 k_pi) = true /\ valid (mul d2 k_pi) = true.
Proof. vm_compute. repeat split. Qed.

(** ** Conversion to angular speed and back *)

Lemma Rabs_le_inv a b : (Rabs a <= b)%R -> (- b <= a <= b)%R.
Proof. unfold Rabs. destruct (Rcase_abs a); lra. Qed.

Lemma rounds_to_nonneg v z : rounds_to v z -> (0 <= v)%R ->
  is_finite z = true /\ valid z = true /\
  (0 <= B2R z)%R /\
  (v - (v / 9007199254740992 + / 18446744073709551616) <= B2R z
     <= v + (v / 9007199254740992 + / 18446744073709551616))%R.
Proof.
  intros (Hf & Hv & Herr & Hpos & _) Hv0. rewrite (Rabs_pos_eq v Hv0), u_val in Herr.
  pose proof eta_bound as He. apply Rabs_le_inv in Herr.
  split; [exact Hf|]. split; [exact Hv|]. split; [apply Hpos, Hv0|]. lra.
Qed.

Lemma Rabs_small v : (0 <= v < 18446744073709551616)%R -> (Rabs v < bpow 1023)%R.
Proof. intros H. rewrite Rabs_pos_eq by lra. pose proof bpow_1023_big. lra. Qed.

(** Five correctly rounded operations on a value of at most 2^32 move it by
    less than 2^-18. *)
Lemma round_trip_error x :
  is_finite x = true -> valid x = true -> (0 <= B2R x <= 4294967296)%R ->
  let r := rpm_of_angular_speed (omega_of_rpm x) in
  is_finite r = true /\ valid r = true /\
  (Rabs (B2R r - B2R x) <= / 262144)%R.
Proof.
  intros Fx Vx Hx. cbn zeta. unfold rpm_of_angular_speed, omega_of_rpm.
  destruct consts_ok as (Fd2 & Vd2 & Fpi & Vpi & N60 & F60 & V60 & N2pi & V2pi).
  set (a := B2R x) in *.
  (* rpm * 2.0 *)
  assert (H1 : rounds_to (a * 2) (mul x d2)).
  { rewrite <- B2R_d2. apply mul_correct; try assumption.
    rewrite B2R_d2. apply Rabs_small. fold a. lra. }
  apply rounds_to_nonneg in H1; [|lra]. destruct H1 as (F1 & V1 & P1 & B1).
  set (t1 := mul x d2) in *. set (b1 := B2R t1) in *.
  (* ... * pi *)
  assert (H2 : rounds_to (b1 * (7074237752028440 / 2251799813685248)) (mul t1 k_pi)).
  { rewrite <- B2R_k_pi. apply mul_correct; try assumption.
    rewrite B2R_k_pi. apply Rabs_small. fold b1. lra. }
  apply rounds_to_nonneg in H2; [|lra]. destruct H2 as (F2 & V2 & P2 & B2).
  set (t2 := mul t1 k_pi) in *. set (b2 := B2R t2) in *.
  (* ... / 60.0 *)
  assert (H3 : rounds_to (b2 / 60) (div t2 d60)).
  { rewrite <- B2R_d60. apply div_correct; try assumption.
    rewrite B2R_d60. apply Rabs_small. fold b2. lra. }
  apply rounds_to_nonneg in H3; [|lra]. destruct H3 as (F3 & V3 & P3 & B3).
  set (t3 := div t2 d60) in *. set (b3 := B2R t3) in *.
  (* angular_speed * 60.0 *)
  assert (H4 : rounds_to (b3 * 60) (mul t3 d60)).
  { rewrite <- B2R_d60. apply mul_correct; try assumption.
    rewrite B2R_d60. apply Rabs_small. fold b3. lra. }
  apply rounds_to_nonneg in H4; [|lra]. destruct H4 as (F4 & V4 & P4 & B4).
  set (t4 := mul t3 d60) in *. set (b4 := B2R t4) in *.
  (* ... / (2.0 * k_pi) *)
  assert (H5 : rounds_to (b4 / (7074237752028440 / 1125899906842624)) (div t4 (mul d2 k_pi))).
  { rewrite <- B2R_two_pi. apply div_correct; try assumption.
    rewrite B2R_two_pi. apply Rabs_small. fold b4. lra. }
  apply rounds_to_nonneg in H5; [|lra]. destruct H5 as (F5 & V5 & P5 & B5).
  split; [exact F5|]. split; [exact V5|].
  apply Rabs_le. lra.
Qed.

(** ** Rounding to an integer *)

Lemma magnitude_bounds m e :
  0 <= magnitude m e /\
  (IZR (magnitude m e) - 1 / 2 <= IZR (Zpos m) * bpow e < IZR (magnitude m e) + 1 / 2)%R.
Proof.
  destruct e as [|p|p]; cbn [magnitude].
  - split; [lia|]. rewrite bpow_0, Z.pow_0_r, Z.mul_1_r. lra.
  - split; [apply Z.mul_nonneg_nonneg; [lia|apply Z.pow_nonneg; lia]|].
    rewrite mult_IZR, <- bpow_IZR by lia. lra.
  - set (D := 2 ^ Zpos p). set (H := 2 ^ (Zpos p - 1)).
    assert (HD : D = 2 * H).
    { unfold D, H. replace (Zpos p) with (Z.succ (Zpos p - 1)) at 1 by lia.
      apply Z.pow_succ_r. lia. }
    assert (HH : 0 < H) by (apply Z.pow_pos_nonneg; lia).
    pose proof (Z_div_mod_eq_full (Zpos m + H) D) as E.
    pose proof (Z.mod_pos_bound (Zpos m + H) D ltac:(lia)) as B.
    set (q := (Zpos m + H) / D) in *.
    assert (Hq : 0 <= q) by (apply Z.div_pos; lia).
    split; [exact Hq|].
    rewrite (bpow_neg p). fold D.
    assert (HDR : (0 < IZR D)%R) by (apply IZR_lt; lia).
    assert (L1 : (IZR D * IZR q - IZR H <= IZR (Zpos m))%R).
    { rewrite <- mult_IZR, <- minus_IZR. apply IZR_le. lia. }
    assert (L2 : (IZR (Zpos m) < IZR D * IZR q + IZR H)%R).
    { rewrite <- mult_IZR, <- plus_IZR. apply IZR_lt. lia. }
    assert (E2 : IZR D = (2 * IZR H)%R) by (rewrite HD, mult_IZR; reflexivity).
    set (y := (IZR (Zpos m) * / IZR D)%R).
    assert (Ey : (y * IZR D = IZR (Zpos m))%R).
    { unfold y. field. lra. }
    split.
    + apply Rmult_le_reg_r with (IZR D); [exact HDR|]. rewrite Ey. lra.
    + apply Rmult_lt_reg_r with (IZR D); [exact HDR|]. rewrite Ey. lra.
Qed.

Lemma round_half_away_finite s m e :
  round_half_away (S754_finite s m e) = if s then - magnitude m e else magnitude m e.
Proof. reflexivity. Qed.

(** [round_half_away] is the nearest integer, and on a tie the one of larger
    magnitude. *)
Lemma round_half_away_spec x :
  is_finite x = true ->
  (Rabs (IZR (round_half_away x) - B2R x) <= 1 / 2)%R /\
  (Rabs (IZR (round_half_away x) - B2R x) = 1 / 2 ->
   Rabs (B2R x) < Rabs (IZR (round_half_away x)))%R.
Proof.
  intros Fx. destruct x as [s|s| |s m e]; try discriminate.
  - cbn [round_half_away B2R]. rewrite Rminus_diag, Rabs_R0. split; [lra|intros; lra].
  - rewrite round_half_away_finite. cbn [B2R].
    destruct (magnitude_bounds m e) as [Hq [Lo Hi]].
    set (q := magnitude m e) in *. set (y := (IZR (Zpos m) * bpow e)%R) in *.
    assert (Hy : (0 < y)%R).
    { unfold y. apply Rmult_lt_0_compat; [apply IZR_lt; lia|apply bpow_gt0]. }
    assert (Hq0 : (0 <= IZR q)%R) by (apply IZR_le; exact Hq).
    destruct s; unfold sgn.
    + rewrite opp_IZR.
      replace (- IZR q - -1 * y)%R with (- (IZR q - y))%R by ring.
      replace (-1 * y)%R with (- y)%R by ring.
      rewrite !Rabs_Ropp. split; [apply Rabs_le; lra|].
      intros T. rewrite (Rabs_pos_eq y) by lra. rewrite (Rabs_pos_eq (IZR q)) by lra.
      unfold Rabs in T. destruct (Rcase_abs (IZR q - y)); lra.
    + rewrite Rmult_1_l.
      split; [apply Rabs_le; lra|].
      intros T. rewrite (Rabs_pos_eq y) by lra. rewrite (Rabs_pos_eq (IZR q)) by lra.
      unfold Rabs in T. destruct (Rcase_abs (IZR q - y)); lra.
Qed.

Lemma round_half_away_between x lo hi :
  is_finite x = true ->
  (IZR lo - 1 / 2 < B2R x < IZR hi + 1 / 2)%R ->
  lo <= round_half_away x <= hi.
Proof.
  intros Fx [Hlo Hhi]. destruct (round_half_away_spec x Fx) as [Hn _].
  apply Rabs_le_inv in Hn. set (n := round_half_away x) in *.
  split.
  - assert (H : (IZR lo - 1 < IZR n)%R) by lra.
    rewrite <- minus_IZR in H. apply lt_IZR in H. lia.
  - assert (H : (IZR n < IZR hi + 1)%R) by lra.
    rewrite <- plus_IZR in H. apply lt_IZR in H. lia.
Qed.

(** ** Conversion of integers *)

Lemma iter_xO m d : Zpos (Pos.iter xO m d) = Zpos m * 2 ^ Zpos d.
Proof.
  induction d as [|d IH] using Pos.peano_ind.
  - cbn. lia.
  - rewrite Pos.iter_succ, Pos2Z.inj_xO, IH, Pos2Z.inj_succ, Z.pow_succ_r by lia. ring.
Qed.

Lemma binary_round_correct s m e :
  (IZR (Zpos m) * bpow e < bpow 1023)%R ->
  rounds_to (sgn s * (IZR (Zpos m) * bpow e)) (binary_round 53 1024 s m e).
Proof.
  intros Hv. unfold binary_round, shl_align. rewrite fexp_eq.
  pose proof (digits2_pos_bounds m) as Bm.
  set (d := Zpos (digits2_pos m)) in *.
  set (e' := Z.max (d + e - 53) (-1074)).
  assert (Hpos : (0 < IZR (Zpos m) * bpow e)%R).
  { apply Rmult_lt_0_compat; [apply IZR_lt; lia|apply bpow_gt0]. }
  destruct (e' - e) as [|k|k] eqn:Hk.
  - apply rounds_to_aux; [lia| | |lra].
    + cbn [loc_ok]. rewrite Rmult_assoc, bpow_cancel. ring.
    + rewrite fexp_eq. cbn [Zdigits2]. fold d. fold e'. lia.
  - apply rounds_to_aux; [lia| | |lra].
    + cbn [loc_ok]. rewrite Rmult_assoc, bpow_cancel. ring.
    + rewrite fexp_eq. cbn [Zdigits2]. fold d. fold e'. lia.
  - assert (He : e = e' + Zpos k) by lia.
    apply rounds_to_aux; [lia| | |lra].
    + cbn [loc_ok]. rewrite iter_xO, mult_IZR, <- bpow_IZR by lia.
      rewrite Rmult_assoc, <- bpow_plus. f_equal. f_equal. lia.
    + rewrite fexp_eq.
      assert (Hd : d + Zpos k <= Zdigits2 (Zpos (Pos.iter xO m k))).
      { replace (d + Zpos k) with (d - 1 + Zpos k + 1) by ring.
        apply Zdigits2_ge; [lia|lia|]. rewrite iter_xO, Z.pow_add_r by lia.
        apply Z.mul_le_mono_nonneg_r; [apply Z.pow_nonneg; lia|lia]. }
      lia.
Qed.

Lemma of_Z_correct n :
  (Rabs (IZR n) < bpow 1023)%R -> rounds_to (IZR n) (of_Z n).
Proof.
  intros Hn. unfold of_Z, binary_normalize. destruct n as [|p|p].
  - apply rounds_to_zero.
  - replace (IZR (Zpos p)) with (sgn false * (IZR (Zpos p) * bpow 0))%R
      by (unfold sgn; rewrite bpow_0; ring).
    apply binary_round_correct. rewrite bpow_0, Rmult_1_r.
    rewrite Rabs_pos_eq in Hn; [exact Hn|apply IZR_le; lia].
  - replace (IZR (Zneg p)) with (sgn true * (IZR (Zpos p) * bpow 0))%R.
    2:{ unfold sgn. rewrite bpow_0. change (Zneg p) with (- Zpos p). rewrite opp_IZR. ring. }
    apply binary_round_correct. rewrite bpow_0, Rmult_1_r.
    change (Zneg p) with (- Zpos p) in Hn. rewrite opp_IZR, Rabs_Ropp in Hn.
    rewrite Rabs_pos_eq in Hn; [exact Hn|apply IZR_le; lia].
Qed.

(** ** Comparisons *)

Lemma leb_pos_B2R m1 e1 m2 e2 :
  bounded 53 1024 m1 e1 = true -> bounded 53 1024 m2 e2 = true ->
  leb (S754_finite false m1 e1) (S754_finite false m2 e2) = true ->
  (IZR (Zpos m1) * bpow e1 <= IZR (Zpos m2) * bpow e2)%R.
Proof.
  intros B1 B2. unfold leb, SFleb, SFcompare.
  destruct (bounded_inv _ _ B1) as (Hd1 & He1 & Hc1).
  destruct (bounded_inv _ _ B2) as (Hd2 & He2 & Hc2).
  pose proof (digits2_pos_bounds m1) as D1. pose proof (digits2_pos_bounds m2) as D2.
  destruct (Z.compare_spec e1 e2) as [E|L|G]; [| |discriminate].
  - subst e2. intros H.
    assert (Hm : (m1 <= m2)%positive).
    { unfold Pos.le, Pos.compare. destruct (Pos.compare_cont Eq m1 m2); congruence. }
    apply Rmult_le_compat_r; [apply Rlt_le, bpow_gt0|apply IZR_le; lia].
  - intros _.
    assert (Hm2 : 2 ^ 52 <= Zpos m2).
    { destruct Hc2 as [E|E]; [|lia]. rewrite E in D2. cbn in D2. lia. }
    assert (Hm1 : Zpos m1 < 2 ^ 53).
    { apply Z.lt_le_trans with (2 ^ Zpos (digits2_pos m1)); [lia|].
      apply Z.pow_le_mono_r; lia. }
    apply Rle_trans with (bpow (53 + e1)).
    + rewrite bpow_plus, (bpow_IZR 53) by lia.
      apply Rmult_le_compat_r; [apply Rlt_le, bpow_gt0|apply IZR_le; lia].
    + apply Rle_trans with (bpow (52 + e2)); [apply bpow_le; lia|].
      rewrite bpow_plus, (bpow_IZR 52) by lia.
      apply Rmult_le_compat_r; [apply Rlt_le, bpow_gt0|apply IZR_le; lia].
Qed.

(** A [double] compared between a non-negative finite [lo] and a positive
    finite [hi] is finite, and its value lies between theirs. *)
Lemma leb_between lo x mh eh :
  valid lo = true -> valid x = true -> bounded 53 1024 mh eh = true ->
  (lo = S754_zero false \/ exists ml el, lo = S754_finite false ml el) ->
  leb lo x = true -> leb x (S754_finite false mh eh) = true ->
  is_finite x = true /\
  (B2R lo <= B2R x <= B2R (S754_finite false mh eh))%R.
Proof.
  intros Vlo Vx Bh Hlo L1 L2.
  assert (Hh : (0 < IZR (Zpos mh) * bpow eh)%R).
  { apply Rmult_lt_0_compat; [apply IZR_lt; lia|apply bpow_gt0]. }
  destruct x as [sx|sx| |sx mx ex].
  - split; [reflexivity|]. cbn [B2R]. unfold sgn. rewrite Rmult_1_l.
    destruct Hlo as [->|(ml & el & ->)]; [cbn [B2R]; lra|].
    destruct sx; discriminate.
  - destruct sx; [|discriminate].
    destruct Hlo as [->|(ml & el & ->)]; discriminate.
  - destruct Hlo as [->|(ml & el & ->)]; discriminate.
  - split; [reflexivity|].
    destruct sx.
    { destruct Hlo as [->|(ml & el & ->)]; discriminate. }
    cbn [valid valid_binary] in Vx.
    pose proof (leb_pos_B2R _ _ _ _ Vx Bh L2) as Hup.
    cbn [B2R]. unfold sgn. rewrite !Rmult_1_l. split; [|exact Hup].
    destruct Hlo as [->|(ml & el & ->)].
    + cbn [B2R]. apply Rlt_le, Rmult_lt_0_compat; [apply IZR_lt; lia|apply bpow_gt0].
    + cbn [valid valid_binary] in Vlo. cbn [B2R]. unfold sgn. rewrite Rmult_1_l.
      apply (leb_pos_B2R _ _ _ _ Vlo Vx L1).
Qed.

(** ** The generator's table *)

Lemma choose_range_in_table p : In (choose_range p) generator_table.
Proof.
  unfold choose_range, generator_table.
  repeat match goal with |- context [if ?b then _ else _] => destruct b end;
    cbn; tauto.
Qed.

Lemma range_bounds_intro r lo hi ml el mh eh :
  (rpm_min r = S754_zero false /\ lo = 0 \/
   rpm_min r = S754_finite false ml el /\ valid (rpm_min r) = true /\
   B2R (S754_finite false ml el) = IZR lo) ->
  rpm_max r = S754_finite false mh eh -> valid (rpm_max r) = true ->
  B2R (S754_finite false mh eh) = IZR hi ->
  range_bounds r lo hi.
Proof.
  intros Hlo Hhi Vhi Bhi x Hx. unfold in_range in Hx.
  apply andb_prop in Hx. destruct Hx as [Hx L2]. apply andb_prop in Hx. destruct Hx as [Vx L1].
  split; [exact Vx|]. rewrite Hhi in *. cbn [valid valid_binary] in Vhi.
  destruct Hlo as [[E ->]|(E & Vlo & Blo)]; rewrite E in *.
  - destruct (leb_between (S754_zero false) x mh eh) as [F [B1 B2]]; auto.
    split; [exact F|]. rewrite <- Bhi. cbn [B2R] in B1. lra.
  - destruct (leb_between (S754_finite false ml el) x mh eh) as [F [B1 B2]]; eauto.
    split; [exact F|]. rewrite <- Bhi, <- Blo. lra.
Qed.

(** ** Machine integers *)

Ltac bool_to_prop :=
  repeat match goal with
  | H : (_ && _) = true |- _ => apply andb_prop in H; destruct H
  | H : (_ && _) = false |- _ => apply andb_false_iff in H; destruct H
  | H : (_ || _) = true |- _ => apply orb_prop in H; destruct H
  | H : (_ || _) = false |- _ => apply orb_false_elim in H; destruct H
  | H : (_ =? _) = true |- _ => apply Z.eqb_eq in H
  | H : (_ =? _) = false |- _ => apply Z.eqb_neq in H
  | H : (_ <? _) = true |- _ => apply Z.ltb_lt in H
  | H : (_ <? _) = false |- _ => apply Z.ltb_ge in H
  | H : (_ <=? _) = true |- _ => apply Z.leb_le in H
  | H : (_ <=? _) = false |- _ => apply Z.leb_gt in H
  end.

Lemma in_int_iff z : Int.in_int z = true <-> Int.INT_MIN <= z <= Int.INT_MAX.
Proof.
  unfold Int.in_int. rewrite andb_true_iff, !Z.leb_le. tauto.
Qed.

Lemma in_long_iff z : Int.in_long z = true <-> Int.LONG_MIN <= z <= Int.LONG_MAX.
Proof.
  unfold Int.in_long. rewrite andb_true_iff, !Z.leb_le. tauto.
Qed.

Lemma of_long_range n : Int.INT_MIN <= Int.of_long n <= Int.INT_MAX.
Proof.
  unfold Int.of_long, Int.INT_MIN, Int.INT_MAX.
  pose proof (Z.mod_pos_bound (n + 2147483648) 4294967296 ltac:(lia)). lia.
Qed.

Lemma of_long_id n : Int.INT_MIN <= n <= Int.INT_MAX -> Int.of_long n = n.
Proof.
  unfold Int.of_long, Int.INT_MIN, Int.INT_MAX. intros H.
  rewrite Z.mod_small by lia. ring.
Qed.

Lemma int_add_some a b : Int.in_int (a + b) = true -> Int.add a b = Some (a + b).
Proof. intros H. unfold Int.add. cbn zeta. rewrite H. reflexivity. Qed.

Lemma int_add_inv a b c : Int.add a b = Some c ->
  c = a + b /\ Int.INT_MIN <= c <= Int.INT_MAX.
Proof.
  unfold Int.add. cbn zeta. destruct (Int.in_int (a + b)) eqn:E; [|discriminate].
  intros [= <-]. split; [reflexivity|]. apply in_int_iff, E.
Qed.

(** ** [std::lround] *)

Lemma lround_in_range x :
  is_finite x = true -> Int.in_long (round_half_away x) = true ->
  lround x = round_half_away x.
Proof. intros F L. unfold lround. rewrite F, L. reflexivity. Qed.

Lemma int_in_long n : Int.in_int n = true -> Int.in_long n = true.
Proof.
  intros H. apply in_int_iff in H. apply in_long_iff.
  unfold Int.INT_MIN, Int.INT_MAX, Int.LONG_MIN, Int.LONG_MAX in *. lia.
Qed.

(** ** The band chain *)

Ltac classify_cases :=
  unfold classify, Idle_min, Idle_max, Climb_min, Climb_max, Cruise_min, Cruise_max,
    Caution_min, Caution_max, RedLine_min, RedLine_max;
  rewrite ?Z.geb_leb;
  repeat match goal with
  | |- context [if ?b then _ else _] => destruct b eqn:?
  end;
  bool_to_prop; try reflexivity; try lia.

Lemma classify_table r :
  (r < 1000 -> fst (classify r) = PowerOff) /\
  (1000 <= r <= 3500 -> fst (classify r) = Idle) /\
  (3501 <= r <= 6000 -> fst (classify r) = Climb) /\
  (6001 <= r <= 9000 -> fst (classify r) = Cruise) /\
  (9001 <= r <= 9799 -> fst (classify r) = Caution) /\
  (9800 <= r <= 10200 -> fst (classify r) = RedLine) /\
  (10200 < r -> fst (classify r) = OverLimit).
Proof. repeat split; intros H; classify_cases. Qed.

Lemma update_from_rpm_eq w :
  update_from_rpm w =
    ({| m_raw_rpm := rpm_of_angular_speed w;
        m_filtered_rpm := Int.of_long (lround (rpm_of_angular_speed w));
        m_powerband := fst (classify (Int.of_long (lround (rpm_of_angular_speed w)))) |},
     snd (classify (Int.of_long (lround (rpm_of_angular_speed w))))).
Proof.
  unfold update_from_rpm. cbn zeta.
  destruct (classify (Int.of_long (lround (rpm_of_angular_speed w)))); reflexivity.
Qed.

(** Inside the range of [int] the stored value is the nearest integer. *)
Lemma filtered_rpm_in_range w :
  is_finite (rpm_of_angular_speed w) = true ->
  Int.in_int (round_half_away (rpm_of_angular_speed w)) = true ->
  filtered_rpm (fst (update_from_rpm w)) = round_half_away (rpm_of_angular_speed w).
Proof.
  intros F I. rewrite update_from_rpm_eq. cbn [fst filtered_rpm m_filtered_rpm].
  rewrite (lround_in_range _ F (int_in_long _ I)).
  apply of_long_id, in_int_iff, I.
Qed.

(** The conversion to angular speed and back returns a value whose nearest
    integer lies in any integer interval around the original rpm. *)
Lemma round_trip_between x lo hi :
  is_finite x = true -> valid x = true ->
  0 <= lo -> hi <= Int.INT_MAX -> (0 <= B2R x)%R ->
  (IZR lo - / 4 <= B2R x <= IZR hi + / 4)%R ->
  lo <= filtered_rpm (fst (update_from_rpm (omega_of_rpm x))) <= hi.
Proof.
  intros Fx Vx Hlo Hhi Hx0 Hx.
  assert (Hx1 : (B2R x <= 4294967296)%R).
  { assert (IZR hi <= 2147483647)%R by (apply IZR_le; exact Hhi). lra. }
  destruct (round_trip_error x Fx Vx (conj Hx0 Hx1)) as (Fr & Vr & Er).
  cbn zeta in Fr, Vr, Er. apply Rabs_le_inv in Er.
  set (r := rpm_of_angular_speed (omega_of_rpm x)) in *.
  assert (Hn : lo <= round_half_away r <= hi).
  { apply round_half_away_between; [exact Fr|lra]. }
  assert (I : Int.in_int (round_half_away r) = true).
  { apply in_int_iff. unfold Int.INT_MIN, Int.INT_MAX in *. lia. }
  rewrite (filtered_rpm_in_range _ Fr I). exact Hn.
Qed.

(** * The claims *)

(** C1. For every integer value of [filtered_rpm] the classifier assigns the
    band of the partition table: 0 is PowerOff (silently), 1..999 is PowerOff
    with the below-idle notice, 1000..3500 Idle, 3501..6000 Climb, 6001..9000
    Cruise, 9001..9799 Caution, 9800..10200 RedLine, above 10200 OverLimit,
    and every negative value is PowerOff; the object that [update_from_rpm]
    leaves behind always carries the band of its [filtered_rpm]. *)
Theorem C1_band_partition :
  (forall r : Z,
     (r = 0 -> classify r = (PowerOff, [])) /\
     (1 <= r <= 999 ->
        classify r =
          (PowerOff, [Text "RPM Below Idle: Engine not in normal operating band."])) /\
     (1000 <= r <= 3500 -> fst (classify r) = Idle) /\
     (3501 <= r <= 6000 -> fst (classify r) = Climb) /\
     (6001 <= r <= 9000 -> fst (classify r) = Cruise) /\
     (9001 <= r <= 9799 -> fst (classify r) = Caution) /\
     (9800 <= r <= 10200 -> fst (classify r) = RedLine) /\
     (r > 10200 -> fst (classify r) = OverLimit) /\
     (r < 0 -> fst (classify r) = PowerOff)) /\
  (forall w,
     powerband (fst (update_from_rpm w))
       = fst (classify (filtered_rpm (fst (update_from_rpm w)))) /\
     snd (update_from_rpm w)
       = snd (classify (filtered_rpm (fst (update_from_rpm w))))).
Proof.
  split.
  - intros r. repeat split; intros H; classify_cases.
  - intros w. rewrite update_from_rpm_eq. split; reflexivity.
Qed.

(** C2. The diagnostic policy is applied in priority order, first match
    winning: more than four hours of redline time is a system failure with
    code 2; otherwise more than one hour of redline time or more than three
    hours of caution time requires maintenance, code 1; otherwise the check
    is successful, code 0.  [main] applies it to the final counters. *)
Theorem C2_diagnostic_priority :
  (forall caution_sec redline_sec : Z,
     (redline_sec > 4 * 3600 ->
        status (diagnose caution_sec redline_sec) = SystemCheckSystemFailure /\
        code (diagnose caution_sec redline_sec) = 2) /\
     (redline_sec <= 4 * 3600 -> redline_sec > 1 * 3600 \/ caution_sec > 3 * 3600 ->
        status (diagnose caution_sec redline_sec) = SystemMaintenanceRequired /\
        code (diagnose caution_sec redline_sec) = 1) /\
     (redline_sec <= 1 * 3600 -> caution_sec <= 3 * 3600 ->
        status (diagnose caution_sec redline_sec) = SystemSuccessful /\
        code (diagnose caution_sec redline_sec) = 0)) /\
  (forall rng o,
     main true rng = Some o ->
     diag o = Some (diagnose (caution_seconds (flight_hours (final o)))
                             (redline_seconds (flight_hours (final o))))).
Proof.
  split.
  - intros caution_sec redline_sec.
    unfold diagnose. cbn zeta. rewrite !Z.gtb_ltb.
    change (4 * (60 * 60)) with 14400. change (1 * (60 * 60)) with 3600.
    change (3 * (60 * 60)) with 10800.
    repeat split; intros;
      repeat match goal with
      | |- context [if ?b then _ else _] => destruct b eqn:?
      end; bool_to_prop; try reflexivity; lia.
  - intros rng o. unfold main. cbn [negb].
    destruct (tick_loop rng (Z.to_nat total_ticks) 0 _) as [sim|]; [|discriminate].
    cbn [bind]. intros [= <-]. reflexivity.
Qed.

(** ** Accumulation *)

Lemma round_half_away_nonneg x :
  (0 <= B2R x)%R -> 0 <= round_half_away x.
Proof.
  intros H. destruct x as [s|s| |s m e]; cbn [round_half_away]; try lia.
  destruct (magnitude_bounds m e) as [Hq _].
  destruct s; [|exact Hq]. exfalso. cbn [B2R] in H. unfold sgn in H.
  assert (0 < IZR (Zpos m) * bpow e)%R
    by (apply Rmult_lt_0_compat; [apply IZR_lt; lia|apply bpow_gt0]).
  lra.
Qed.

Lemma delta_of_in_range ds :
  is_finite ds = true -> Int.in_int (round_half_away ds) = true ->
  delta_of ds = round_half_away ds.
Proof.
  intros F I. unfold delta_of.
  rewrite (lround_in_range _ F (int_in_long _ I)).
  apply of_long_id, in_int_iff, I.
Qed.

(** What one step does to the counters, given the [int] it adds. *)
Lemma flight_log_hours_inv eng ds fh fh' :
  flight_log_hours eng ds fh = Some fh' ->
  total_seconds fh' =
    (if negb (band_eqb (powerband eng) PowerOff)
     then total_seconds fh + delta_of ds else total_seconds fh) /\
  caution_seconds fh' =
    (if band_eqb (powerband eng) Caution
     then caution_seconds fh + delta_of ds else caution_seconds fh) /\
  redline_seconds fh' =
    (if band_eqb (powerband eng) RedLine || band_eqb (powerband eng) OverLimit
     then redline_seconds fh + delta_of ds else redline_seconds fh).
Proof.
  unfold flight_log_hours. cbn zeta. intros H.
  destruct (negb (band_eqb (powerband eng) PowerOff));
    destruct (band_eqb (powerband eng) Caution);
    destruct (band_eqb (powerband eng) RedLine || band_eqb (powerband eng) OverLimit);
    repeat match type of H with
    | context [Int.add ?a ?b] =>
        let E := fresh "E" in
        destruct (Int.add a b) as [?|] eqn:E;
        [apply int_add_inv in E; destruct E as [-> _]|discriminate]
    end;
    cbn [bind] in H; injection H as <-; cbn; auto.
Qed.

Lemma flight_log_hours_some eng ds fh :
  (powerband eng <> PowerOff -> Int.in_int (total_seconds fh + delta_of ds) = true) ->
  (powerband eng = Caution -> Int.in_int (caution_seconds fh + delta_of ds) = true) ->
  (powerband eng = RedLine \/ powerband eng = OverLimit ->
     Int.in_int (redline_seconds fh + delta_of ds) = true) ->
  exists fh', flight_log_hours eng ds fh = Some fh'.
Proof.
  intros Ht Hc Hr. unfold flight_log_hours. cbn zeta.
  destruct (powerband eng); cbn [band_eqb negb orb];
    rewrite ?int_add_some by (first [apply Ht|apply Hc|apply Hr]; auto; discriminate);
    cbn [bind]; eexists; reflexivity.
Qed.

(** A step is defined exactly when each addition it performs stays within
    [int]. *)
Lemma flight_log_hours_defined eng ds fh :
  (exists fh', flight_log_hours eng ds fh = Some fh') <->
  (powerband eng <> PowerOff -> Int.in_int (total_seconds fh + delta_of ds) = true) /\
  (powerband eng = Caution -> Int.in_int (caution_seconds fh + delta_of ds) = true) /\
  (powerband eng = RedLine \/ powerband eng = OverLimit ->
     Int.in_int (redline_seconds fh + delta_of ds) = true).
Proof.
  split.
  - intros [fh' H]. unfold flight_log_hours in H. cbn zeta in H.
    destruct (powerband eng) eqn:Eb; cbn [band_eqb negb orb] in H;
      unfold Int.add in H; cbn zeta in H;
      repeat match type of H with
      | context [if Int.in_int ?z then _ else _] =>
          destruct (Int.in_int z) eqn:?; [|cbn [bind] in H; discriminate H]
      end;
      (split; [|split]); intros Hb; try reflexivity; try congruence;
      destruct Hb; congruence.
  - intros (Ht & Hc & Hr). apply flight_log_hours_some; assumption.
Qed.

(** Counters never decrease under a step that adds a non-negative [int]. *)
Lemma flight_log_hours_mono eng ds fh fh' :
  0 <= delta_of ds ->
  flight_log_hours eng ds fh = Some fh' ->
  total_seconds fh <= total_seconds fh' /\
  caution_seconds fh <= caution_seconds fh' /\
  redline_seconds fh <= redline_seconds fh'.
Proof.
  intros Hd H. apply flight_log_hours_inv in H. destruct H as (T & C & Rl).
  rewrite T, C, Rl.
  destruct (negb (band_eqb (powerband eng) PowerOff));
    destruct (band_eqb (powerband eng) Caution);
    destruct (band_eqb (powerband eng) RedLine || band_eqb (powerband eng) OverLimit); lia.
Qed.

(** C3 (amended). For every engine state and every finite [delta_seconds]
    whose nearest integer fits [int], one accumulation step whose additions
    stay within [int] sets [delta] to that nearest integer (ties away from
    zero) and adds it to [total_seconds] exactly when the band is not
    PowerOff, to [caution_seconds] exactly when the band is Caution, and to
    [redline_seconds] exactly when the band is RedLine or OverLimit; the
    other counters are unchanged. *)
Theorem C3_accumulation_step eng delta_seconds fh :
  is_finite delta_seconds = true ->
  Int.in_int (round_half_away delta_seconds) = true ->
  (powerband eng <> PowerOff ->
     Int.in_int (total_seconds fh + round_half_away delta_seconds) = true) ->
  (powerband eng = Caution ->
     Int.in_int (caution_seconds fh + round_half_away delta_seconds) = true) ->
  (powerband eng = RedLine \/ powerband eng = OverLimit ->
     Int.in_int (redline_seconds fh + round_half_away delta_seconds) = true) ->
  let delta := round_half_away delta_seconds in
  delta_of delta_seconds = delta /\
  (Rabs (IZR delta - B2R delta_seconds) <= 1 / 2)%R /\
  exists fh',
    flight_log_hours eng delta_seconds fh = Some fh' /\
    (powerband eng <> PowerOff -> total_seconds fh' = total_seconds fh + delta) /\
    (powerband eng = PowerOff -> total_seconds fh' = total_seconds fh) /\
    (powerband eng = Caution -> caution_seconds fh' = caution_seconds fh + delta) /\
    (powerband eng <> Caution -> caution_seconds fh' = caution_seconds fh) /\
    (powerband eng = RedLine \/ powerband eng = OverLimit ->
       redline_seconds fh' = redline_seconds fh + delta) /\
    (powerband eng <> RedLine -> powerband eng <> OverLimit ->
       redline_seconds fh' = redline_seconds fh).
Proof.
  intros F I Ht Hc Hr delta.
  pose proof (delta_of_in_range _ F I) as D. split; [exact D|].
  split; [apply round_half_away_spec, F|].
  destruct (flight_log_hours_some eng delta_seconds fh) as [fh' H];
    try (rewrite D; assumption).
  exists fh'. split; [exact H|].
  apply flight_log_hours_inv in H. destruct H as (T & C & Rl).
  rewrite D in T, C, Rl. rewrite T, C, Rl.
  destruct (powerband eng); cbn [band_eqb negb orb];
    repeat split; intros; try reflexivity; try congruence;
    match goal with H : _ \/ _ |- _ => destruct H; congruence end.
Qed.

(** C7 (amended). All three counters are zero at construction.  For every
    accumulation step whose [delta_seconds] is finite, non-negative and
    rounds to at most [INT_MAX], and whose additions stay within [int], the
    step is defined and leaves each counter at least as large as it was.
    The additions staying within [int] is exactly what makes the step
    defined, so no defined step of that kind decreases a counter.  The
    accumulation step is the only operation that changes the counters. *)
Theorem C7_counters_monotone :
  total_seconds FlightHours_init = 0 /\
  caution_seconds FlightHours_init = 0 /\
  redline_seconds FlightHours_init = 0 /\
  forall eng delta_seconds fh,
    is_finite delta_seconds = true ->
    (0 <= B2R delta_seconds)%R ->
    round_half_away delta_seconds <= Int.INT_MAX ->
    ((powerband eng <> PowerOff ->
        Int.in_int (total_seconds fh + round_half_away delta_seconds) = true) ->
     (powerband eng = Caution ->
        Int.in_int (caution_seconds fh + round_half_away delta_seconds) = true) ->
     (powerband eng = RedLine \/ powerband eng = OverLimit ->
        Int.in_int (redline_seconds fh + round_half_away delta_seconds) = true) ->
     exists fh',
       flight_log_hours eng delta_seconds fh = Some fh' /\
       total_seconds fh <= total_seconds fh' /\
       caution_seconds fh <= caution_seconds fh' /\
       redline_seconds fh <= redline_seconds fh') /\
    ((exists fh', flight_log_hours eng delta_seconds fh = Some fh') <->
     (powerband eng <> PowerOff ->
        Int.in_int (total_seconds fh + round_half_away delta_seconds) = true) /\
     (powerband eng = Caution ->
        Int.in_int (caution_seconds fh + round_half_away delta_seconds) = true) /\
     (powerband eng = RedLine \/ powerband eng = OverLimit ->
        Int.in_int (redline_seconds fh + round_half_away delta_seconds) = true)) /\
    (forall fh', flight_log_hours eng delta_seconds fh = Some fh' ->
       total_seconds fh <= total_seconds fh' /\
       caution_seconds fh <= caution_seconds fh' /\
       redline_seconds fh <= redline_seconds fh').
Proof.
  split; [reflexivity|]. split; [reflexivity|]. split; [reflexivity|].
  intros eng ds fh F Hpos Hmax.
  pose proof (round_half_away_nonneg ds Hpos) as Hn.
  assert (I : Int.in_int (round_half_away ds) = true).
  { apply in_int_iff. unfold Int.INT_MIN. lia. }
  pose proof (delta_of_in_range _ F I) as D.
  assert (Hd : 0 <= delta_of ds) by (rewrite D; exact Hn).
  split; [|split].
  - intros It Ic Ir.
    destruct (flight_log_hours_some eng ds fh) as [fh' H]; try (rewrite D; assumption).
    exists fh'. split; [exact H|]. apply (flight_log_hours_mono eng ds fh fh' Hd H).
  - rewrite <- D. apply flight_log_hours_defined.
  - intros fh' H. apply (flight_log_hours_mono eng ds fh fh' Hd H).
Qed.


(** ** Generator and classifier *)

Ltac b2r_value :=
  rewrite B2R_finite_neg; unfold sgn;
  match goal with
  | |- context [IZR (2 ^ ?k)] =>
      let v := eval vm_compute in (2 ^ k) in change (2 ^ k) with v
  end; lra.

Ltac range_tac :=
  first
    [ eapply (range_bounds_intro _ _ _ 1%positive 0); [left; split; reflexivity| | | ]
    | eapply range_bounds_intro;
      [right; split; [vm_compute; reflexivity|split; [reflexivity|b2r_value]]| | | ] ];
  [ vm_compute; reflexivity | reflexivity | b2r_value ].

Lemma table_bounds r :
  In r generator_table ->
  exists lo hi,
    range_bounds r lo hi /\ 0 <= lo /\ hi <= 11000 /\
    forall n, lo <= n <= hi -> fst (classify n) = intended r.
Proof.
  intros H. cbn [generator_table In] in H.
  destruct H as [<-|[<-|[<-|[<-|[<-|[<-|[<-|[]]]]]]]].
  - exists 0, 900. split; [range_tac|]. split; [lia|]. split; [lia|].
    intros n Hn. cbn [intended range_below_idle]. classify_cases.
  - exists 1000, 3500. split; [range_tac|]. split; [lia|]. split; [lia|].
    intros n Hn. cbn [intended range_idle]. classify_cases.
  - exists 3501, 6000. split; [range_tac|]. split; [lia|]. split; [lia|].
    intros n Hn. cbn [intended range_climb]. classify_cases.
  - exists 6001, 9000. split; [range_tac|]. split; [lia|]. split; [lia|].
    intros n Hn. cbn [intended range_cruise]. classify_cases.
  - exists 9001, 9799. split; [range_tac|]. split; [lia|]. split; [lia|].
    intros n Hn. cbn [intended range_caution]. classify_cases.
  - exists 9800, 10200. split; [range_tac|]. split; [lia|]. split; [lia|].
    intros n Hn. cbn [intended range_redline]. classify_cases.
  - exists 10201, 11000. split; [range_tac|]. split; [lia|]. split; [lia|].
    intros n Hn. cbn [intended range_overlimit]. classify_cases.
Qed.

Lemma in_range_classified r x :
  In r generator_table -> in_range r x = true ->
  powerband (fst (update_from_rpm (omega_of_rpm x))) = intended r /\
  0 <= filtered_rpm (fst (update_from_rpm (omega_of_rpm x))) <= 11000.
Proof.
  intros Hr Hx. destruct (table_bounds r Hr) as (lo & hi & Hb & Hlo & Hhi & Hband).
  destruct (Hb x Hx) as (Vx & Fx & Bx).
  assert (L0 : (0 <= IZR lo)%R) by (apply IZR_le; exact Hlo).
  assert (Hf : lo <= filtered_rpm (fst (update_from_rpm (omega_of_rpm x))) <= hi).
  { apply round_trip_between; try assumption; try lra. unfold Int.INT_MAX. lia. }
  split; [|lia].
  rewrite update_from_rpm_eq in Hf |- *. cbn [fst powerband m_powerband filtered_rpm m_filtered_rpm] in *.
  apply Hband, Hf.
Qed.

(** C6. Whatever value the generator draws from one of its seven ranges,
    converting it to angular speed and classifying it yields the band of that
    range: [0,900] PowerOff, [1000,3500] Idle, [3501,6000] Climb, [6001,9000]
    Cruise, [9001,9799] Caution, [9800,10200] RedLine, [10201,11000]
    OverLimit; in particular [drive_engine] leaves the engine in the band of
    the branch its probability variate selected. *)
Theorem C6_generator_classifier_consistent :
  (forall r rpm,
     In r generator_table -> in_range r rpm = true ->
     powerband (fst (update_from_rpm (omega_of_rpm rpm))) = intended r) /\
  (forall p, In (choose_range p) generator_table) /\
  (forall v,
     variates_ok v = true ->
     powerband (fst (drive_engine v)) = intended (choose_range (pick_band v))).
Proof.
  split; [|split].
  - intros r rpm Hr Hx. apply (in_range_classified r rpm Hr Hx).
  - exact choose_range_in_table.
  - intros v Hv. unfold variates_ok in Hv. cbn zeta in Hv.
    destruct (in_range_classified _ _ (choose_range_in_table (pick_band v)) Hv) as [Hp _].
    unfold drive_engine. cbn zeta.
    destruct (update_from_rpm _) as [eng out]. exact Hp.
Qed.

(** ** Unit conversion *)

Lemma rounds_to_nonpos v z : rounds_to v z -> (v <= 0)%R ->
  is_finite z = true /\ valid z = true /\
  (B2R z <= 0)%R /\
  (v - (- v / 9007199254740992 + / 18446744073709551616) <= B2R z
     <= v + (- v / 9007199254740992 + / 18446744073709551616))%R.
Proof.
  intros (Hf & Hv & Herr & _ & Hneg) Hv0.
  rewrite (Rabs_left1 v Hv0), u_val in Herr.
  pose proof eta_bound as He. apply Rabs_le_inv in Herr.
  split; [exact Hf|]. split; [exact Hv|]. split; [apply Hneg, Hv0|]. lra.
Qed.

Lemma Rabs_small_signed v :
  (- 18446744073709551616 < v < 18446744073709551616)%R -> (Rabs v < bpow 1023)%R.
Proof.
  intros H. pose proof bpow_1023_big. unfold Rabs. destruct (Rcase_abs v); lra.
Qed.

(** For angular speeds up to 2^27 rad/s in magnitude the computed rpm is
    finite, within 2^-20 of [w * 60 / (2 * k_pi)], and below 2^31. *)
Lemma rpm_of_angular_speed_error w :
  is_finite w = true -> valid w = true ->
  (Rabs (B2R w) <= 134217728)%R ->
  is_finite (rpm_of_angular_speed w) = true /\
  valid (rpm_of_angular_speed w) = true /\
  (Rabs (B2R (rpm_of_angular_speed w) - B2R w * 60 / (2 * B2R k_pi)) <= / 1048576)%R /\
  (Rabs (B2R (rpm_of_angular_speed w)) <= 2147483647)%R.
Proof.
  intros Fw Vw Hw. unfold rpm_of_angular_speed.
  destruct consts_ok as (Fd2 & Vd2 & Fpi & Vpi & N60 & F60 & V60 & N2pi & V2pi).
  apply Rabs_le_inv in Hw. set (a := B2R w) in *.
  assert (H1 : rounds_to (a * 60) (mul w d60)).
  { rewrite <- B2R_d60. apply mul_correct; try assumption.
    rewrite B2R_d60. apply Rabs_small_signed. fold a. lra. }
  set (t1 := mul w d60) in *.
  assert (H2 : rounds_to (B2R t1 / (7074237752028440 / 1125899906842624)) (div t1 (mul d2 k_pi))).
  { rewrite <- B2R_two_pi. apply div_correct; try assumption; try apply H1.
    rewrite B2R_two_pi. apply Rabs_small_signed.
    destruct (Rle_dec 0 a) as [Ha|Ha].
    - apply rounds_to_nonneg in H1; [|lra]. destruct H1 as (_ & _ & P1 & B1). lra.
    - apply rounds_to_nonpos in H1; [|lra]. destruct H1 as (_ & _ & P1 & B1). lra. }
  rewrite B2R_k_pi.
  split; [apply H2|]. split; [apply H2|].
  destruct (Rle_dec 0 a) as [Ha|Ha].
  - apply rounds_to_nonneg in H1; [|lra]. destruct H1 as (_ & _ & P1 & B1).
    apply rounds_to_nonneg in H2; [|lra]. destruct H2 as (_ & _ & P2 & B2).
    split; apply Rabs_le; lra.
  - apply rounds_to_nonpos in H1; [|lra]. destruct H1 as (_ & _ & P1 & B1).
    apply rounds_to_nonpos in H2; [|lra]. destruct H2 as (_ & _ & P2 & B2).
    split; apply Rabs_le; lra.
Qed.

(** C4 (amended). For every finite angular speed whose rpm, computed in
    [double] as [(w * 60.0) / (2.0 * k_pi)], is finite and rounds to a value
    that fits [int], classification stores that quotient unrounded as
    [raw_rpm] and sets [filtered_rpm] to its nearest integer, ties away from
    zero.  This covers every angular speed of magnitude at most 2^27 rad/s,
    where the stored quotient is within 2^-20 of the exact one. *)
Theorem C4_conversion_and_rounding :
  (forall w,
     raw_rpm (fst (update_from_rpm w)) = div (mul w d60) (mul d2 k_pi)) /\
  (forall w,
     is_finite w = true ->
     is_finite (rpm_of_angular_speed w) = true ->
     Int.in_int (round_half_away (rpm_of_angular_speed w)) = true ->
     let eng := fst (update_from_rpm w) in
     filtered_rpm eng = round_half_away (raw_rpm eng) /\
     (Rabs (IZR (filtered_rpm eng) - B2R (raw_rpm eng)) <= 1 / 2)%R /\
     ((Rabs (IZR (filtered_rpm eng) - B2R (raw_rpm eng)) = 1 / 2)%R ->
      (Rabs (B2R (raw_rpm eng)) < Rabs (IZR (filtered_rpm eng)))%R)) /\
  (forall w,
     is_finite w = true -> valid w = true ->
     (Rabs (B2R w) <= 134217728)%R ->
     is_finite (rpm_of_angular_speed w) = true /\
     Int.in_int (round_half_away (rpm_of_angular_speed w)) = true /\
     (Rabs (B2R (rpm_of_angular_speed w) - B2R w * 60 / (2 * B2R k_pi))
        <= / 1048576)%R).
Proof.
  split; [|split].
  - intros w. rewrite update_from_rpm_eq. reflexivity.
  - intros w _ F I eng. subst eng.
    rewrite (filtered_rpm_in_range w F I).
    assert (E : raw_rpm (fst (update_from_rpm w)) = rpm_of_angular_speed w)
      by (rewrite update_from_rpm_eq; reflexivity).
    rewrite E. split; [reflexivity|]. apply round_half_away_spec, F.
  - intros w Fw Vw Hw.
    destruct (rpm_of_angular_speed_error w Fw Vw Hw) as (F & V & E & B).
    split; [exact F|]. split; [|exact E].
    apply in_int_iff. apply Rabs_le_inv in B.
    apply round_half_away_between; [exact F|].
    unfold Int.INT_MIN, Int.INT_MAX. lra.
Qed.

(** C5 (amended). For every integer rpm from 0 to [INT_MAX], converting it to
    angular speed by [omega = rpm * 2.0 * pi / 60.0] and classifying that
    omega yields a [filtered_rpm] equal to the original rpm; so it is for
    the conversion of the integer to [double] and for any [double] whose
    value is that integer. *)
Theorem C5_round_trip :
  (forall rpm : Z,
     0 <= rpm <= Int.INT_MAX ->
     filtered_rpm (fst (update_from_rpm (omega_of_rpm (of_Z rpm)))) = rpm) /\
  (forall (x : double) (rpm : Z),
     valid x = true -> is_finite x = true -> B2R x = IZR rpm ->
     0 <= rpm <= Int.INT_MAX ->
     filtered_rpm (fst (update_from_rpm (omega_of_rpm x))) = rpm).
Proof.
  split.
  - intros rpm H. unfold Int.INT_MAX in H.
    assert (R0 : (0 <= IZR rpm <= 2147483647)%R).
    { split; apply IZR_le; lia. }
    assert (Hc : rounds_to (IZR rpm) (of_Z rpm)).
    { apply of_Z_correct, Rabs_small. lra. }
    apply rounds_to_nonneg in Hc; [|lra]. destruct Hc as (F & V & P & B).
    assert (Hf : rpm <= filtered_rpm (fst (update_from_rpm (omega_of_rpm (of_Z rpm)))) <= rpm).
    { apply round_trip_between; try assumption; try (unfold Int.INT_MAX; lia); lra. }
    lia.
  - intros x rpm V F E H.
    assert (R0 : (0 <= IZR rpm)%R) by (apply IZR_le; lia).
    assert (Hf : rpm <= filtered_rpm (fst (update_from_rpm (omega_of_rpm x))) <= rpm).
    { apply round_trip_between; try assumption; try lia; rewrite E; lra. }
    lia.
Qed.

(** ** The simulation loop *)

Lemma delta_seconds_rounds : delta_of delta_seconds = 60.
Proof. vm_compute. reflexivity. Qed.

Section Run.

Variable rng : mt19937.

Lemma tick_body_spec tick sim B :
  counters_within (flight_hours sim) B -> B + 60 <= Int.INT_MAX ->
  exists sim' row,
    tick_body rng tick sim = Some sim' /\
    rpm_source sim' = S (rpm_source sim) /\
    counters_within (flight_hours sim') (B + 60) /\
    log_file sim' = log_file sim ++ [row] /\
    row_time_step row = Some (mul (of_Z tick) delta_seconds).
Proof.
  intros (Ht & Hc & Hr) HB. unfold tick_body.
  destruct (drive_engine (rng (rpm_source sim))) as [eng out].
  destruct (flight_log_hours_some eng delta_seconds (flight_hours sim)) as [fh E2];
    try (intros; rewrite delta_seconds_rounds; apply in_int_iff;
         unfold Int.INT_MIN, Int.INT_MAX in *; lia).
  rewrite E2. cbn [bind].
  eexists. eexists. split; [reflexivity|]. cbn [rpm_source flight_hours log_file].
  split; [reflexivity|]. split; [|split; [reflexivity|reflexivity]].
  apply flight_log_hours_inv in E2. destruct E2 as (T & C & Rl).
  rewrite delta_seconds_rounds in T, C, Rl.
  unfold counters_within. rewrite T, C, Rl.
  destruct (powerband eng); cbn [band_eqb negb orb]; lia.
Qed.

Lemma tick_loop_spec n : forall tick sim B,
  counters_within (flight_hours sim) B -> B + 60 * Z.of_nat n <= Int.INT_MAX ->
  exists sim' rows,
    tick_loop rng n tick sim = Some sim' /\
    rpm_source sim' = (rpm_source sim + n)%nat /\
    counters_within (flight_hours sim') (B + 60 * Z.of_nat n) /\
    log_file sim' = log_file sim ++ rows /\
    map row_time_step rows =
      map (fun i => Some (mul (of_Z (tick + Z.of_nat i)) delta_seconds)) (seq 0 n).
Proof.
  induction n as [|n IH]; intros tick sim B Hc HB.
  - exists sim, []. cbn [tick_loop seq map]. rewrite app_nil_r, Nat.add_0_r.
    replace (B + 60 * Z.of_nat 0) with B by lia. auto.
  - rewrite Nat2Z.inj_succ in HB.
    destruct (tick_body_spec tick sim B) as (sim1 & row & E & Hs & Hc1 & Hl & Hrow);
      [exact Hc|lia|].
    destruct (IH (tick + 1) sim1 (B + 60)) as (sim' & rows & E' & Hs' & Hc' & Hl' & Hrows);
      [exact Hc1|lia|].
    exists sim', (row :: rows). cbn [tick_loop]. rewrite E. cbn [bind].
    split; [exact E'|]. split; [rewrite Hs', Hs; lia|].
    split.
    { replace (B + 60 * Z.of_nat (S n)) with (B + 60 + 60 * Z.of_nat n) by lia. exact Hc'. }
    split; [rewrite Hl', Hl, <- app_assoc; reflexivity|].
    cbn [map seq]. rewrite Hrow, Hrows, <- seq_shift, map_map.
    f_equal; [rewrite Z.add_0_r; reflexivity|].
    apply map_ext. intros i. do 3 f_equal. lia.
Qed.

(** A run whose sink opened. *)
Lemma main_run :
  exists o rows,
    main true rng = Some o /\
    exit_code o = 0 /\
    rpm_source (final o) = 3000%nat /\
    log_file (final o) = csv_header :: rows /\
    map row_time_step rows =
      map (fun i => Some (mul (of_Z (Z.of_nat i)) delta_seconds)) (seq 0 3000) /\
    0 <= total_seconds (flight_hours (final o)) <= 180000.
Proof.
  unfold main. cbn [negb].
  change (Z.to_nat total_ticks) with 3000%nat.
  match goal with
  | |- context [tick_loop rng 3000 0 ?s] =>
      destruct (tick_loop_spec 3000 0 s 0) as (sim & rows & E & Hs & Hc & Hl & Hrows)
  end.
  { cbn. unfold counters_within. cbn. lia. }
  { unfold Int.INT_MAX. lia. }
  rewrite E. cbn [bind]. eexists. exists rows. split; [reflexivity|].
  cbn [exit_code final rpm_source log_file flight_hours].
  split; [reflexivity|]. split; [exact Hs|]. split; [exact Hl|].
  split; [exact Hrows|].
  destruct Hc as (Ht & _). change (0 + 60 * Z.of_nat 3000) with 180000 in Ht. exact Ht.
Qed.

End Run.

(** C8. When the row sink opens, the simulation runs exactly 3000 ticks of 60
    simulated seconds each, writes the header row followed by exactly 3000
    data rows (row [i] at time step [i * 60.0]), and ends with
    [total_seconds] at most 3000 * 60 = 180000, whatever the generator
    delivers. *)
Theorem C8_run_shape (rng : mt19937) :
  exists o rows,
    main true rng = Some o /\
    Z.to_nat total_ticks = 3000%nat /\
    delta_of delta_seconds = 60 /\
    rpm_source (final o) = 3000%nat /\
    log_file (final o) = csv_header :: rows /\
    List.length rows = 3000%nat /\
    map row_time_step rows =
      map (fun i => Some (mul (of_Z (Z.of_nat i)) delta_seconds)) (seq 0 3000) /\
    0 <= total_seconds (flight_hours (final o)) <= 3000 * 60.
Proof.
  destruct (main_run rng) as (o & rows & E & _ & Hs & Hl & Hrows & Ht).
  exists o, rows. split; [exact E|]. split; [reflexivity|].
  split; [exact delta_seconds_rounds|]. split; [exact Hs|]. split; [exact Hl|].
  split; [|split; [exact Hrows|exact Ht]].
  rewrite <- (length_map row_time_step), Hrows, length_map, length_seq. reflexivity.
Qed.

(** C9. The program returns 0 after a complete run and returns 1 exactly when
    [flight_log.csv] cannot be opened; in that case it stops before the tick
    loop: no variate is drawn, no row is written, and only the failure notice
    is printed. *)
Theorem C9_exit_code :
  (forall rng,
     main false rng =
       Some {| exit_code := 1;
               final := simulation_init;
               cerr := ["Failed to open flight_log.csv"%string];
               diag := None |}) /\
  rpm_source simulation_init = 0%nat /\
  log_file simulation_init = [] /\
  cout simulation_init = [] /\
  (forall rng,
     exists o, main true rng = Some o /\ exit_code o = 0 /\
               rpm_source (final o) = 3000%nat) /\
  (forall opened rng o,
     main opened rng = Some o -> (exit_code o = 1 <-> opened = false)).
Proof.
  split; [reflexivity|]. split; [reflexivity|]. split; [reflexivity|].
  split; [reflexivity|]. split.
  - intros rng. destruct (main_run rng) as (o & rows & E & Hx & Hs & _).
    exists o. auto.
  - intros opened rng o. destruct opened; unfold main; cbn [negb].
    + destruct (tick_loop rng (Z.to_nat total_ticks) 0 _) as [sim|]; [|discriminate].
      cbn [bind]. intros [= <-]. cbn [exit_code]. split; [discriminate|discriminate].
    + intros [= <-]. cbn [exit_code]. split; reflexivity.
Qed.

(** * Further properties of the code *)

(** ** Band names, zones and notifications *)

Lemma to_string_eqb a b : String.eqb (to_string a) (to_string b) = band_eqb a b.
Proof. destruct a, b; reflexivity. Qed.

Lemma band_eqb_true a b : band_eqb a b = true <-> a = b.
Proof. destruct a, b; cbn; split; intros H; try reflexivity; discriminate. Qed.

(** X1. The names [to_string] writes in the band column are pairwise
    distinct: two bands have the same name only if they are the same band,
    and no band is written as the fallback text. *)
Theorem X1_to_string_injective (a b : EnginePowerBand) :
  (to_string a = to_string b <-> a = b) /\ to_string a <> "Unknown"%string.
Proof.
  split.
  - rewrite <- band_eqb_true, <- to_string_eqb. symmetry. apply String.eqb_eq.
  - destruct a; discriminate.
Qed.

Lemma print_zone_messages_table rpm :
  (rpm < 1000 -> print_zone_messages rpm = [Text "RPM Below Idle"]) /\
  (1000 <= rpm <= 9000 -> print_zone_messages rpm = [Text "RPM Within Normal Range"]) /\
  (9001 <= rpm <= 9799 -> print_zone_messages rpm = [Text "Caution: High RPM"]) /\
  (9800 <= rpm -> print_zone_messages rpm = [Text "Redline: Potential Engine Damage"]).
Proof.
  unfold print_zone_messages, Zones_Idle_min, Zones_Normal_max, Zones_Caution_max,
    Zones_RedLine_max.
  repeat split; intros H;
    repeat match goal with
    | |- context [if ?b then _ else _] => destruct b eqn:?
    end; bool_to_prop; try reflexivity; lia.
Qed.

Ltac zone_finish :=
  repeat split; intros H;
  first [ reflexivity | discriminate H
        | (destruct H as [H|[H|H]]; discriminate H)
        | (destruct H as [H|H]; discriminate H)
        | (left; reflexivity) | (right; left; reflexivity)
        | (right; right; reflexivity) | (right; reflexivity) ].

(** X2. The safety message of [Zones::print_zone_messages] and the band of
    the classifier agree on every rpm: "below idle" is printed exactly for
    the PowerOff band, "within normal range" exactly for Idle, Climb and
    Cruise, "caution" exactly for Caution, and "redline" exactly for RedLine
    and OverLimit. *)
Theorem X2_zone_message_matches_band (rpm : Z) :
  (print_zone_messages rpm = [Text "RPM Below Idle"]
     <-> fst (classify rpm) = PowerOff) /\
  (print_zone_messages rpm = [Text "RPM Within Normal Range"]
     <-> fst (classify rpm) = Idle \/ fst (classify rpm) = Climb \/
         fst (classify rpm) = Cruise) /\
  (print_zone_messages rpm = [Text "Caution: High RPM"]
     <-> fst (classify rpm) = Caution) /\
  (print_zone_messages rpm = [Text "Redline: Potential Engine Damage"]
     <-> fst (classify rpm) = RedLine \/ fst (classify rpm) = OverLimit).
Proof.
  destruct (print_zone_messages_table rpm) as (Z1 & Z2 & Z3 & Z4).
  destruct (classify_table rpm) as (B1 & B2 & B3 & B4 & B5 & B6 & B7).
  assert (C : rpm < 1000 \/ 1000 <= rpm <= 3500 \/ 3501 <= rpm <= 6000 \/
              6001 <= rpm <= 9000 \/ 9001 <= rpm <= 9799 \/
              9800 <= rpm <= 10200 \/ 10200 < rpm) by lia.
  destruct C as [C|[C|[C|[C|[C|[C|C]]]]]].
  - rewrite (Z1 C), (B1 C). zone_finish.
  - rewrite (Z2 ltac:(lia)), (B2 C). zone_finish.
  - rewrite (Z2 ltac:(lia)), (B3 C). zone_finish.
  - rewrite (Z2 ltac:(lia)), (B4 C). zone_finish.
  - rewrite (Z3 C), (B5 C). zone_finish.
  - rewrite (Z4 ltac:(lia)), (B6 C). zone_finish.
  - rewrite (Z4 ltac:(lia)), (B7 C). zone_finish.
Qed.

Lemma classify_power_off n : band_eqb (fst (classify n)) PowerOff = (n <? Idle_min).
Proof.
  destruct (n <? Idle_min) eqn:E; revert E; classify_cases.
Qed.

(** X11. After any update, [isPowerOff] answers true exactly when the stored
    [filtered_rpm] is below [Idle_min]. *)
Theorem X11_isPowerOff_below_idle (w : double) :
  isPowerOff (fst (update_from_rpm w))
    = (filtered_rpm (fst (update_from_rpm w)) <? Idle_min).
Proof.
  rewrite update_from_rpm_eq. unfold isPowerOff, filtered_rpm. cbn [fst m_powerband m_filtered_rpm].
  apply classify_power_off.
Qed.

(** X12. The line the classifier prints identifies the band: two rpm values
    that print the same notification (or both print none) are in the same
    band. *)
Theorem X12_notification_determines_band (a b : Z) :
  snd (classify a) = snd (classify b) -> fst (classify a) = fst (classify b).
Proof.
  unfold classify.
  repeat match goal with
  | |- context [if ?c then _ else _] => destruct c
  end; cbn [fst snd]; intros H; first [reflexivity | discriminate H].
Qed.

(** ** The clock columns *)

Lemma clock_decomposition t :
  t = 3600 * Z.quot t 3600 + 60 * Z.quot (Z.rem t 3600) 60 + Z.rem t 60 /\
  (0 <= t -> 0 <= Z.quot t 3600 /\ 0 <= Z.quot (Z.rem t 3600) 60 < 60 /\
             0 <= Z.rem t 60 < 60) /\
  (t <= 0 -> Z.quot t 3600 <= 0 /\ -60 < Z.quot (Z.rem t 3600) 60 <= 0 /\
             -60 < Z.rem t 60 <= 0).
Proof.
  pose proof (Z.quot_rem' t 3600) as E1.
  pose proof (Z.quot_rem' (Z.rem t 3600) 60) as E2.
  pose proof (Z.quot_rem' t 60) as E3.
  destruct (Z_le_gt_dec 0 t) as [Hp|Hn].
  - pose proof (Z.rem_bound_pos t 3600 Hp ltac:(lia)) as B1.
    pose proof (Z.rem_bound_pos (Z.rem t 3600) 60 ltac:(lia) ltac:(lia)) as B2.
    pose proof (Z.rem_bound_pos t 60 Hp ltac:(lia)) as B3.
    repeat split; intros; lia.
  - pose proof (Z.rem_bound_pos_neg t 3600 ltac:(lia) ltac:(lia)) as B1.
    pose proof (Z.rem_bound_pos_neg (Z.rem t 3600) 60 ltac:(lia) ltac:(lia)) as B2.
    pose proof (Z.rem_bound_pos_neg t 60 ltac:(lia) ltac:(lia)) as B3.
    repeat split; intros; lia.
Qed.

(** X3. [hours], [minutes] and [seconds] always recompose [total_seconds]:
    total = 3600 * hours + 60 * minutes + seconds.  For a non-negative total
    the minutes and seconds lie in 0..59; for a negative total the integer
    divisions truncate toward zero and all three components are
    non-positive. *)
Theorem X3_clock_decomposition (fh : FlightHours) :
  total_seconds fh = 3600 * hours fh + 60 * minutes fh + seconds fh /\
  (0 <= total_seconds fh ->
     0 <= hours fh /\ 0 <= minutes fh < 60 /\ 0 <= seconds fh < 60) /\
  (total_seconds fh <= 0 ->
     hours fh <= 0 /\ -60 < minutes fh <= 0 /\ -60 < seconds fh <= 0).
Proof. unfold hours, minutes, seconds, Int.div, Int.rem. apply clock_decomposition. Qed.

(** ** The diagnostic *)

(** X4. The verdict's numeric code and its status always agree: the code is
    0, 1 or 2, and it is 0 exactly for a successful check, 1 exactly when
    maintenance is required and 2 exactly for a system failure. *)
Theorem X4_diagnostic_code_matches_status (caution_sec redline_sec : Z) :
  let d := diagnose caution_sec redline_sec in
  0 <= code d <= 2 /\
  (code d = 0 <-> status d = SystemSuccessful) /\
  (code d = 1 <-> status d = SystemMaintenanceRequired) /\
  (code d = 2 <-> status d = SystemCheckSystemFailure).
Proof.
  cbn zeta. unfold diagnose. cbn zeta.
  destruct (redline_sec >? 4 * (60 * 60));
    [|destruct ((redline_sec >? 1 * (60 * 60)) || (caution_sec >? 3 * (60 * 60)))];
    cbn; repeat split; intros; first [lia | reflexivity | discriminate].
Qed.

(** X5. The verdict is monotone: more time in the caution band and more time
    in the redline bands never lower the severity code. *)
Theorem X5_diagnostic_monotone (caution_sec redline_sec caution_sec' redline_sec' : Z) :
  caution_sec <= caution_sec' -> redline_sec <= redline_sec' ->
  code (diagnose caution_sec redline_sec) <= code (diagnose caution_sec' redline_sec').
Proof.
  intros Hc Hr. unfold diagnose. cbn zeta. rewrite !Z.gtb_ltb.
  change (4 * (60 * 60)) with 14400. change (1 * (60 * 60)) with 3600.
  change (3 * (60 * 60)) with 10800.
  repeat match goal with
  | |- context [if ?b then _ else _] => destruct b eqn:?
  end; bool_to_prop; cbn; lia.
Qed.

(** ** One accumulation step *)

(** X6. One accumulation step never moves [caution_seconds] and
    [redline_seconds] together, and whenever it moves one of them it moves
    [total_seconds] by the same amount; with the engine in PowerOff the step
    is always defined and changes no counter, whatever [delta_seconds] is. *)
Theorem X6_step_frame (eng : EnginePowerModel) (delta_seconds : double) (fh : FlightHours) :
  (forall fh',
     flight_log_hours eng delta_seconds fh = Some fh' ->
     (caution_seconds fh' = caution_seconds fh \/
      redline_seconds fh' = redline_seconds fh) /\
     (caution_seconds fh' <> caution_seconds fh \/
      redline_seconds fh' <> redline_seconds fh ->
      total_seconds fh' - total_seconds fh
        = (caution_seconds fh' - caution_seconds fh)
          + (redline_seconds fh' - redline_seconds fh))) /\
  (powerband eng = PowerOff -> flight_log_hours eng delta_seconds fh = Some fh).
Proof.
  split.
  - intros fh' H. apply flight_log_hours_inv in H. destruct H as (T & C & Rl).
    rewrite T, C, Rl.
    destruct (powerband eng); cbn [band_eqb negb orb]; split; intros; lia.
  - intros E. unfold flight_log_hours. cbn zeta. rewrite E. cbn [band_eqb negb orb bind].
    destruct fh; reflexivity.
Qed.

(** ** The rows of a run *)

Lemma drive_engine_band v :
  powerband (fst (drive_engine v))
    = fst (classify (filtered_rpm (fst (drive_engine v)))).
Proof.
  unfold drive_engine. cbn zeta.
  pose proof (update_from_rpm_eq
                (omega_of_rpm (rpm_dist v (rpm_min (choose_range (pick_band v)))
                                           (rpm_max (choose_range (pick_band v)))))) as E.
  destruct (update_from_rpm _) as [eng out]. injection E as -> _. reflexivity.
Qed.

Lemma count_rows_nil bands : count_rows bands [] = 0.
Proof. reflexivity. Qed.

Lemma count_rows_cons bands row rows :
  count_rows bands (row :: rows)
    = (if row_in bands row then 1 else 0) + count_rows bands rows.
Proof.
  unfold count_rows. cbn [filter]. destruct (row_in bands row); cbn [List.length]; lia.
Qed.

Lemma count_rows_nonneg bands rows : 0 <= count_rows bands rows.
Proof. unfold count_rows. lia. Qed.

Lemma row_in_csv_row bands fh eng ts :
  row_in bands (csv_row fh eng ts) = existsb (band_eqb (powerband eng)) bands.
Proof.
  unfold row_in, csv_row. cbn [row_band]. induction bands as [|b bands IH]; [reflexivity|].
  cbn [existsb]. rewrite to_string_eqb, IH. reflexivity.
Qed.

Lemma csv_row_fields_ok fh eng ts :
  0 <= total_seconds fh -> 0 <= caution_seconds fh -> 0 <= redline_seconds fh ->
  caution_seconds fh + redline_seconds fh <= total_seconds fh ->
  powerband eng = fst (classify (filtered_rpm eng)) ->
  row_fields_ok (csv_row fh eng ts) = true.
Proof.
  intros Ht Hc Hr Hs Hb. unfold csv_row, row_fields_ok.
  destruct (clock_decomposition (total_seconds fh)) as (E & P & _).
  specialize (P Ht). unfold hours, minutes, seconds, Int.div, Int.rem.
  rewrite Hb, String.eqb_refl.
  repeat (apply andb_true_intro; split);
    first [apply Z.eqb_eq | apply Z.leb_le | apply Z.ltb_lt | reflexivity]; lia.
Qed.

Section Rows.

Variable rng : mt19937.

(** What one iteration appends and leaves behind. *)
Lemma tick_body_row tick sim sim' :
  tick_body rng tick sim = Some sim' ->
  flight_log_hours (engine sim') delta_seconds (flight_hours sim)
    = Some (flight_hours sim') /\
  powerband (engine sim') = fst (classify (filtered_rpm (engine sim'))) /\
  log_file sim' = log_file sim
    ++ [csv_row (flight_hours sim') (engine sim') (mul (of_Z tick) delta_seconds)].
Proof.
  unfold tick_body. pose proof (drive_engine_band (rng (rpm_source sim))) as Hb.
  destruct (drive_engine (rng (rpm_source sim))) as [eng out]. cbn [fst] in Hb.
  destruct (flight_log_hours eng delta_seconds (flight_hours sim)) as [fh|] eqn:E;
    [|discriminate].
  cbn [bind]. intros [= <-]. cbn. auto.
Qed.

Lemma tick_loop_rows n : forall tick sim B,
  counters_within (flight_hours sim) B ->
  caution_seconds (flight_hours sim) + redline_seconds (flight_hours sim)
    <= total_seconds (flight_hours sim) ->
  B + 60 * Z.of_nat n <= Int.INT_MAX ->
  exists sim' rows,
    tick_loop rng n tick sim = Some sim' /\
    log_file sim' = log_file sim ++ rows /\
    List.length rows = n /\
    counters_within (flight_hours sim') (B + 60 * Z.of_nat n) /\
    caution_seconds (flight_hours sim') + redline_seconds (flight_hours sim')
      <= total_seconds (flight_hours sim') /\
    Forall (fun l => row_fields_ok l = true) rows /\
    total_seconds (flight_hours sim')
      = total_seconds (flight_hours sim) + 60 * count_rows running_bands rows /\
    caution_seconds (flight_hours sim')
      = caution_seconds (flight_hours sim) + 60 * count_rows [Caution] rows /\
    redline_seconds (flight_hours sim')
      = redline_seconds (flight_hours sim) + 60 * count_rows [RedLine; OverLimit] rows /\
    StronglySorted Z.le (map row_total rows) /\
    Forall (fun l => total_seconds (flight_hours sim) <= row_total l
                     <= total_seconds (flight_hours sim')) rows /\
    (n <> O ->
     exists init ts, rows = init ++ [csv_row (flight_hours sim') (engine sim') ts]).
Proof.
  induction n as [|n IH]; intros tick sim B Hc Hs HB.
  - exists sim, []. cbn [tick_loop]. rewrite app_nil_r, !count_rows_nil.
    replace (B + 60 * Z.of_nat 0) with B by lia.
    split; [reflexivity|]. split; [reflexivity|]. split; [reflexivity|].
    split; [exact Hc|]. split; [exact Hs|].
    split; [constructor|]. split; [lia|]. split; [lia|]. split; [lia|].
    split; [constructor|]. split; [constructor|]. intros H; contradiction.
  - rewrite Nat2Z.inj_succ in HB.
    destruct (tick_body_spec rng tick sim B) as (sim1 & row0 & E & _ & Hc1 & _ & _);
      [exact Hc|lia|].
    destruct (tick_body_row tick sim sim1 E) as (Hstep & Hband & Hlog).
    set (row := csv_row (flight_hours sim1) (engine sim1) (mul (of_Z tick) delta_seconds)) in *.
    apply flight_log_hours_inv in Hstep. destruct Hstep as (T & C & Rl).
    rewrite delta_seconds_rounds in T, C, Rl.
    unfold counters_within in Hc, Hc1.
    assert (Hs1 : caution_seconds (flight_hours sim1) + redline_seconds (flight_hours sim1)
                  <= total_seconds (flight_hours sim1)).
    { rewrite T, C, Rl. destruct (powerband (engine sim1)); cbn [band_eqb negb orb]; lia. }
    destruct (IH (tick + 1) sim1 (B + 60) Hc1 Hs1 ltac:(lia))
      as (sim' & rows & E' & Hl' & Hlen & Hc' & Hs' & Hok & Ht' & Hca' & Hre' & Hsort & Hbnd & Hlast).
    exists sim', (row :: rows). cbn [tick_loop]. rewrite E. cbn [bind].
    assert (Hrow : row_total row = total_seconds (flight_hours sim1)) by reflexivity.
    assert (Hin : forall bands, row_in bands row = existsb (band_eqb (powerband (engine sim1))) bands).
    { intros bands. apply row_in_csv_row. }
    pose proof (count_rows_nonneg running_bands rows) as N1.
    split; [exact E'|]. split; [rewrite Hl', Hlog, <- app_assoc; reflexivity|].
    split; [cbn [List.length]; lia|].
    split.
    { replace (B + 60 * Z.of_nat (S n)) with (B + 60 + 60 * Z.of_nat n) by lia. exact Hc'. }
    split; [exact Hs'|].
    split.
    { constructor; [|exact Hok].
      apply csv_row_fields_ok; try lia. exact Hband. }
    rewrite !count_rows_cons, !Hin. unfold running_bands in Ht', N1 |- *.
    split; [|split; [|split]].
    { rewrite Ht', T. destruct (powerband (engine sim1)); cbn [band_eqb negb orb existsb]; lia. }
    { rewrite Hca', C. destruct (powerband (engine sim1)); cbn [band_eqb negb orb existsb]; lia. }
    { rewrite Hre', Rl. destruct (powerband (engine sim1)); cbn [band_eqb negb orb existsb]; lia. }
    assert (Hstep_le : total_seconds (flight_hours sim) <= total_seconds (flight_hours sim1)).
    { rewrite T. destruct (negb (band_eqb (powerband (engine sim1)) PowerOff)); lia. }
    split; [|split].
    { cbn [map]. constructor; [exact Hsort|]. rewrite Hrow.
      apply Forall_map. eapply Forall_impl; [|exact Hbnd]. cbn. intros l Hl. lia. }
    { constructor; [rewrite Hrow; lia|].
      eapply Forall_impl; [|exact Hbnd]. cbn. intros l Hl. lia. }
    intros _. destruct n as [|n].
    + cbn [tick_loop] in E'. injection E' as <-.
      destruct rows; [|discriminate]. exists [], (mul (of_Z tick) delta_seconds). reflexivity.
    + destruct (Hlast ltac:(discriminate)) as (init & ts & ->).
      exists (row :: init), ts. reflexivity.
Qed.

(** Everything the log of a run shows, for the further properties below. *)
Lemma main_rows :
  exists o rows,
    main true rng = Some o /\
    log_file (final o) = csv_header :: rows /\
    map row_time_step rows =
      map (fun i => Some (mul (of_Z (Z.of_nat i)) delta_seconds)) (seq 0 3000) /\
    Forall (fun l => row_fields_ok l = true) rows /\
    total_seconds (flight_hours (final o)) = 60 * count_rows running_bands rows /\
    caution_seconds (flight_hours (final o)) = 60 * count_rows [Caution] rows /\
    redline_seconds (flight_hours (final o)) = 60 * count_rows [RedLine; OverLimit] rows /\
    StronglySorted Z.le (map row_total rows) /\
    (exists init ts,
       rows = init ++ [csv_row (flight_hours (final o)) (engine (final o)) ts]) /\
    diag o = Some (diagnose (caution_seconds (flight_hours (final o)))
                            (redline_seconds (flight_hours (final o)))).
Proof.
  unfold main. cbn [negb].
  change (Z.to_nat total_ticks) with 3000%nat.
  match goal with
  | |- context [tick_loop rng 3000 0 ?s] => set (sim0 := s)
  end.
  assert (Hc0 : counters_within (flight_hours sim0) 0) by (unfold counters_within; cbn; lia).
  destruct (tick_loop_spec rng 3000 0 sim0 0 Hc0 ltac:(unfold Int.INT_MAX; lia))
    as (sim1 & rows1 & E1 & _ & _ & Hl1 & Hts).
  destruct (tick_loop_rows 3000 0 sim0 0 Hc0 ltac:(cbn; lia) ltac:(unfold Int.INT_MAX; lia))
    as (sim & rows & E & Hl & _ & _ & _ & Hok & Ht & Hca & Hre & Hsort & _ & Hlast).
  rewrite E in E1. injection E1 as <-.
  rewrite Hl in Hl1. apply app_inv_head in Hl1. subst rows1.
  rewrite E. cbn [bind]. eexists. exists rows. split; [reflexivity|].
  cbn [final log_file flight_hours engine diag caution_time redline_time].
  split; [exact Hl|]. split; [exact Hts|]. split; [exact Hok|].
  split; [rewrite Ht; reflexivity|]. split; [rewrite Hca; reflexivity|].
  split; [rewrite Hre; reflexivity|]. split; [exact Hsort|].
  split; [apply Hlast; discriminate|reflexivity].
Qed.

End Rows.

Lemma to_Z_exact_sound x n : to_Z_exact x = Some n -> B2R x = IZR n.
Proof.
  assert (Hinj : forall a b : Z, Some a = Some b -> a = b) by (intros a b H; congruence).
  destruct x as [s|s| |s m e]; unfold to_Z_exact, B2R; try discriminate.
  - intros H. apply Hinj in H. subst n. reflexivity.
  - destruct e as [|p|p]; cbv beta iota.
    + intros H. apply Hinj in H. subst n. rewrite (bpow_IZR 0) by lia.
      destruct s; unfold sgn; rewrite ?opp_IZR, mult_IZR; ring.
    + intros H. apply Hinj in H. subst n. rewrite (bpow_IZR (Zpos p)) by lia.
      destruct s; unfold sgn; rewrite ?opp_IZR, mult_IZR; ring.
    + destruct (Z.eqb_spec (Zpos m mod 2 ^ Zpos p) 0) as [E|]; [|discriminate].
      intros H. apply Hinj in H. subst n. rewrite bpow_neg.
      assert (HD : 0 < 2 ^ Zpos p) by (apply Z.pow_pos_nonneg; lia).
      pose proof (Z_div_mod_eq_full (Zpos m) (2 ^ Zpos p)) as Ed. rewrite E, Z.add_0_r in Ed.
      assert (HDR : (0 < IZR (2 ^ Zpos p))%R) by (apply IZR_lt; exact HD).
      assert (Em : IZR (Zpos m) = (IZR (2 ^ Zpos p) * IZR (Zpos m / 2 ^ Zpos p))%R).
      { rewrite <- mult_IZR. f_equal. exact Ed. }
      destruct s; unfold sgn; rewrite ?opp_IZR, Em; field; lra.
Qed.

Lemma time_steps_exact i :
  (i < 3000)%nat ->
  to_Z_exact (mul (of_Z (Z.of_nat i)) delta_seconds) = Some (60 * Z.of_nat i).
Proof.
  intros Hi.
  assert (H : forallb (fun i =>
                match to_Z_exact (mul (of_Z (Z.of_nat i)) delta_seconds) with
                | Some n => n =? 60 * Z.of_nat i
                | None => false
                end) (seq 0 3000) = true) by (vm_compute; reflexivity).
  rewrite forallb_forall in H. specialize (H i ltac:(apply in_seq; lia)).
  destruct (to_Z_exact _) as [n|]; [|discriminate].
  apply Z.eqb_eq in H. congruence.
Qed.

(** X7. The final counters are exactly the rows of the log counted by band:
    [total_seconds] is 60 times the number of rows not in PowerOff,
    [caution_seconds] 60 times the number of Caution rows, and
    [redline_seconds] 60 times the number of RedLine and OverLimit rows. *)
Theorem X7_counters_count_rows (rng : mt19937) :
  exists o rows,
    main true rng = Some o /\
    log_file (final o) = csv_header :: rows /\
    total_seconds (flight_hours (final o)) = 60 * count_rows running_bands rows /\
    caution_seconds (flight_hours (final o)) = 60 * count_rows [Caution] rows /\
    redline_seconds (flight_hours (final o)) = 60 * count_rows [RedLine; OverLimit] rows.
Proof.
  destruct (main_rows rng) as (o & rows & E & Hl & _ & _ & Ht & Hc & Hr & _).
  exists o, rows. auto.
Qed.

(** X8. Every data row of a run is consistent in itself (its clock columns
    recompose its total, minutes and seconds lie in 0..59, its band is the
    band of its rpm, and caution plus redline time is within the total); the
    [total_seconds] column never decreases down the log; and the last row
    shows the final counters. *)
Theorem X8_rows_consistent (rng : mt19937) :
  exists o rows,
    main true rng = Some o /\
    log_file (final o) = csv_header :: rows /\
    Forall (fun l => row_fields_ok l = true) rows /\
    StronglySorted Z.le (map row_total rows) /\
    exists ts,
      last rows csv_header = csv_row (flight_hours (final o)) (engine (final o)) ts.
Proof.
  destruct (main_rows rng) as (o & rows & E & Hl & _ & Hok & _ & _ & _ & Hsort & Hlast & _).
  exists o, rows. split; [exact E|]. split; [exact Hl|]. split; [exact Hok|].
  split; [exact Hsort|]. destruct Hlast as (init & ts & ->). exists ts. apply last_last.
Qed.

(** X13. The [time_step] column is exact: the product [tick * 60.0] of row
    [i] is the number 60 * i, with no rounding error, for each of the 3000
    rows. *)
Theorem X13_time_step_exact (rng : mt19937) :
  exists o rows,
    main true rng = Some o /\
    log_file (final o) = csv_header :: rows /\
    forall i row,
      nth_error rows i = Some row ->
      exists ts, row_time_step row = Some ts /\
                 to_Z_exact ts = Some (60 * Z.of_nat i) /\
                 B2R ts = IZR (60 * Z.of_nat i).
Proof.
  destruct (main_rows rng) as (o & rows & E & Hl & Hts & _).
  exists o, rows. split; [exact E|]. split; [exact Hl|].
  intros i row Hi.
  assert (Hm : nth_error (map row_time_step rows) i = Some (row_time_step row)).
  { rewrite nth_error_map, Hi. reflexivity. }
  rewrite Hts, nth_error_map in Hm.
  destruct (nth_error (seq 0 3000) i) as [j|] eqn:Ej; [|discriminate].
  assert (Hlt : (i < 3000)%nat).
  { assert (Hn : nth_error (seq 0 3000) i <> None) by (rewrite Ej; discriminate).
    apply nth_error_Some in Hn. rewrite length_seq in Hn. exact Hn. }
  rewrite nth_error_seq in Ej.
  destruct (Nat.ltb_spec i 3000) as [_|Hge]; [|lia]. injection Ej as <-.
  cbn [option_map Nat.add] in Hm. injection Hm as Hm.
  exists (mul (of_Z (Z.of_nat i)) delta_seconds). split; [symmetry; exact Hm|].
  pose proof (time_steps_exact i Hlt) as Hx. split; [exact Hx|].
  apply to_Z_exact_sound, Hx.
Qed.

(** X14. The verdict of a run can be read off its log: the code is 2 exactly
    when more than 240 rows are RedLine or OverLimit, and it is 0 exactly
    when at most 60 rows are RedLine or OverLimit and at most 180 rows are
    Caution. *)
Theorem X14_verdict_from_rows (rng : mt19937) :
  exists o rows d,
    main true rng = Some o /\
    log_file (final o) = csv_header :: rows /\
    diag o = Some d /\
    (code d = 2 <-> 240 < count_rows [RedLine; OverLimit] rows) /\
    (code d = 0 <-> count_rows [RedLine; OverLimit] rows <= 60 /\
                    count_rows [Caution] rows <= 180).
Proof.
  destruct (main_rows rng) as (o & rows & E & Hl & _ & _ & _ & Hc & Hr & _ & _ & Hd).
  exists o, rows. eexists. split; [exact E|]. split; [exact Hl|]. split; [exact Hd|].
  rewrite Hc, Hr. unfold diagnose. cbn zeta. rewrite !Z.gtb_ltb.
  change (4 * (60 * 60)) with 14400. change (1 * (60 * 60)) with 3600.
  change (3 * (60 * 60)) with 10800.
  repeat match goal with
  | |- context [if ?b then _ else _] => destruct b eqn:?
  end; bool_to_prop; cbn; split; split; intros; try lia; try discriminate.
Qed.

(** ** The generator's ranges, as numbers *)

Ltac b2r_bound :=
  match goal with
  | |- B2R ?t = _ =>
      let v := eval vm_compute in t in change t with v
  end;
  first [reflexivity | b2r_value].

Ltac table_row lo hi :=
  exists lo, hi; split; [range_tac|]; split; [b2r_bound|]; split; [b2r_bound|]; lia.

Lemma table_real_bounds r :
  In r generator_table ->
  exists lo hi,
    range_bounds r lo hi /\
    B2R (rpm_min r) = IZR lo /\ B2R (rpm_max r) = IZR hi /\
    0 <= lo /\ hi <= 11000 /\ (hi <= 900 \/ 1000 <= lo).
Proof.
  intros H. cbn [generator_table In] in H.
  destruct H as [<-|[<-|[<-|[<-|[<-|[<-|[<-|[]]]]]]]].
  - table_row 0 900.
  - table_row 1000 3500.
  - table_row 3501 6000.
  - table_row 6001 9000.
  - table_row 9001 9799.
  - table_row 9800 10200.
  - table_row 10201 11000.
Qed.

Lemma drive_engine_fst v :
  fst (drive_engine v)
    = fst (update_from_rpm
             (omega_of_rpm (rpm_dist v (rpm_min (choose_range (pick_band v)))
                                       (rpm_max (choose_range (pick_band v)))))).
Proof.
  unfold drive_engine. cbn zeta. destruct (update_from_rpm _) as [eng out]. reflexivity.
Qed.

Lemma drive_engine_bounds v :
  variates_ok v = true ->
  exists lo hi,
    B2R (rpm_min (choose_range (pick_band v))) = IZR lo /\
    B2R (rpm_max (choose_range (pick_band v))) = IZR hi /\
    lo <= filtered_rpm (fst (drive_engine v)) <= hi /\
    0 <= lo /\ hi <= 11000 /\ (hi <= 900 \/ 1000 <= lo).
Proof.
  intros Hv. unfold variates_ok in Hv. cbn zeta in Hv.
  destruct (table_real_bounds _ (choose_range_in_table (pick_band v)))
    as (lo & hi & Hb & Elo & Ehi & Hlo & Hhi & Hgap).
  destruct (Hb _ Hv) as (Vx & Fx & Bx).
  assert (L0 : (0 <= IZR lo)%R) by (apply IZR_le; exact Hlo).
  exists lo, hi. rewrite drive_engine_fst.
  split; [exact Elo|]. split; [exact Ehi|].
  split; [|auto].
  apply round_trip_between; try assumption; try lra. unfold Int.INT_MAX. lia.
Qed.

(** X9. When the drawn rpm lies in the range the generator chose, the rpm
    the engine stores after the conversion to angular speed and back lies
    between the two bounds of that same range: rounding never carries it
    outside.  It is therefore between 0 and 11000 and never in the gap
    901..999 that no range covers. *)
Theorem X9_drive_engine_within_range (v : variates) :
  variates_ok v = true ->
  (B2R (rpm_min (choose_range (pick_band v)))
     <= IZR (filtered_rpm (fst (drive_engine v)))
     <= B2R (rpm_max (choose_range (pick_band v))))%R /\
  0 <= filtered_rpm (fst (drive_engine v)) <= 11000 /\
  ~ (900 < filtered_rpm (fst (drive_engine v)) < 1000).
Proof.
  intros Hv.
  destruct (drive_engine_bounds v Hv) as (lo & hi & Elo & Ehi & Hf & Hlo & Hhi & Hgap).
  rewrite Elo, Ehi. split; [split; apply IZR_le; lia|]. split; lia.
Qed.

(** ** Angular speed and the power-off threshold *)

Lemma angular_speed_rounded w :
  is_finite w = true -> valid w = true -> (Rabs (B2R w) <= 134217728)%R ->
  filtered_rpm (fst (update_from_rpm w)) = round_half_away (rpm_of_angular_speed w) /\
  is_finite (rpm_of_angular_speed w) = true /\
  (Rabs (B2R (rpm_of_angular_speed w)
         - B2R w * 60 / (2 * (7074237752028440 / 2251799813685248))) <= / 1048576)%R /\
  (Rabs (B2R (rpm_of_angular_speed w)) <= 2147483647)%R.
Proof.
  intros Fw Vw Hw.
  destruct (rpm_of_angular_speed_error w Fw Vw Hw) as (F & V & E & B).
  rewrite B2R_k_pi in E. split; [|auto].
  apply filtered_rpm_in_range; [exact F|].
  apply in_int_iff. apply Rabs_le_inv in B.
  apply round_half_away_between; [exact F|].
  unfold Int.INT_MIN, Int.INT_MAX. lra.
Qed.

(** X10. In terms of the angular speed handed to [update_from_rpm] (finite,
    of magnitude at most 2^27 rad/s): up to 104 rad/s the engine is reported
    off, from 105 rad/s on it is not; and the stored rpm has the sign of the
    angular speed. *)
Theorem X10_power_off_threshold (w : double) :
  is_finite w = true -> valid w = true -> (Rabs (B2R w) <= 134217728)%R ->
  ((B2R w <= 104)%R -> isPowerOff (fst (update_from_rpm w)) = true) /\
  ((105 <= B2R w)%R -> isPowerOff (fst (update_from_rpm w)) = false) /\
  ((B2R w <= 0)%R -> filtered_rpm (fst (update_from_rpm w)) <= 0) /\
  ((0 <= B2R w)%R -> 0 <= filtered_rpm (fst (update_from_rpm w))).
Proof.
  intros Fw Vw Hw.
  destruct (angular_speed_rounded w Fw Vw Hw) as (Ef & F & E & B).
  apply Rabs_le_inv in E. apply Rabs_le_inv in B. apply Rabs_le_inv in Hw.
  assert (Eoff : isPowerOff (fst (update_from_rpm w))
                 = (filtered_rpm (fst (update_from_rpm w)) <? Idle_min)).
  { rewrite update_from_rpm_eq. unfold isPowerOff, filtered_rpm.
    cbn [fst m_powerband m_filtered_rpm]. apply classify_power_off. }
  rewrite Eoff, Ef. unfold Idle_min.
  split; [|split; [|split]]; intros H.
  - apply Z.ltb_lt.
    assert (Hr : Int.INT_MIN <= round_half_away (rpm_of_angular_speed w) <= 999).
    { apply round_half_away_between; [exact F|]. unfold Int.INT_MIN. lra. }
    lia.
  - apply Z.ltb_ge.
    assert (Hr : 1000 <= round_half_away (rpm_of_angular_speed w) <= Int.INT_MAX).
    { apply round_half_away_between; [exact F|]. unfold Int.INT_MAX. lra. }
    lia.
  - assert (Hr : Int.INT_MIN <= round_half_away (rpm_of_angular_speed w) <= 0).
    { apply round_half_away_between; [exact F|]. unfold Int.INT_MIN. lra. }
    lia.
  - assert (Hr : 0 <= round_half_away (rpm_of_angular_speed w) <= Int.INT_MAX).
    { apply round_half_away_between; [exact F|]. unfold Int.INT_MAX. lra. }
    lia.
Qed.

(** ** Rows and draws *)

Section Draws.

Variable rng : mt19937.

Lemma tick_body_draw tick sim sim' :
  tick_body rng tick sim = Some sim' ->
  engine sim' = fst (drive_engine (rng (rpm_source sim))) /\
  rpm_source sim' = S (rpm_source sim).
Proof.
  unfold tick_body.
  destruct (drive_engine (rng (rpm_source sim))) as [eng out].
  destruct (flight_log_hours eng delta_seconds (flight_hours sim)) as [fh|];
    [|discriminate].
  cbn [bind]. intros [= <-]. cbn. auto.
Qed.

(** Row [i] of the loop is written from the engine left by draw
    [rpm_source + i]. *)
Lemma tick_loop_draws n : forall tick sim sim',
  tick_loop rng n tick sim = Some sim' ->
  exists rows,
    log_file sim' = log_file sim ++ rows /\
    Forall2 (fun i row =>
               row_rpm row = filtered_rpm (fst (drive_engine (rng i))) /\
               row_band row = to_string (powerband (fst (drive_engine (rng i)))))
            (seq (rpm_source sim) n) rows.
Proof.
  induction n as [|n IH]; intros tick sim sim' E.
  - cbn [tick_loop] in E. injection E as <-. exists []. rewrite app_nil_r.
    split; [reflexivity|constructor].
  - cbn [tick_loop] in E.
    destruct (tick_body rng tick sim) as [sim1|] eqn:E1; [|discriminate].
    cbn [bind] in E.
    destruct (tick_body_draw tick sim sim1 E1) as (He & Hs).
    destruct (tick_body_row rng tick sim sim1 E1) as (_ & _ & Hl).
    destruct (IH _ _ _ E) as (rows & Hl' & Hall).
    eexists (_ :: rows). split.
    + rewrite Hl', Hl, <- app_assoc. reflexivity.
    + cbn [seq]. constructor; [|rewrite Hs in Hall; exact Hall].
      rewrite He. split; reflexivity.
Qed.

Lemma main_draws :
  exists o rows,
    main true rng = Some o /\
    log_file (final o) = csv_header :: rows /\
    Forall2 (fun i row =>
               row_rpm row = filtered_rpm (fst (drive_engine (rng i))) /\
               row_band row = to_string (powerband (fst (drive_engine (rng i)))))
            (seq 0 3000) rows.
Proof.
  destruct (main_rows rng) as (o & rows & E & Hl & _).
  exists o, rows. split; [exact E|]. split; [exact Hl|].
  revert E Hl. unfold main. cbn [negb].
  change (Z.to_nat total_ticks) with 3000%nat.
  match goal with
  | |- context [tick_loop rng 3000 0 ?s] => set (sim0 := s)
  end.
  destruct (tick_loop rng 3000 0 sim0) as [sim|] eqn:El; [|discriminate].
  cbn [bind]. intros [= <-]. cbn [final log_file]. intros Hl.
  destruct (tick_loop_draws _ _ _ _ El) as (rows' & Hl' & Hall).
  rewrite Hl in Hl'. change (log_file sim0 ++ rows') with (csv_header :: rows') in Hl'.
  injection Hl' as ->. exact Hall.
Qed.

End Draws.

(** X15. Row [i] of the log is written from draw [i] of the generator; when
    every draw honours the range it was asked for, each row's rpm lies
    between 0 and 11000 and outside 901..999, and its band column names the
    band of the range that draw's probability variate selected. *)
Theorem X15_rows_follow_generator (rng : mt19937) :
  (forall i, variates_ok (rng i) = true) ->
  exists o rows,
    main true rng = Some o /\
    log_file (final o) = csv_header :: rows /\
    Forall2 (fun i row =>
               row_rpm row = filtered_rpm (fst (drive_engine (rng i))) /\
               0 <= row_rpm row <= 11000 /\
               ~ (900 < row_rpm row < 1000) /\
               row_band row = to_string (intended (choose_range (pick_band (rng i)))))
            (seq 0 3000) rows.
Proof.
  intros Hok.
  destruct (main_draws rng) as (o & rows & E & Hl & Hall).
  exists o, rows. split; [exact E|]. split; [exact Hl|].
  eapply Forall2_impl; [|exact Hall].
  cbn beta. intros i row (Hr & Hb).
  destruct (drive_engine_bounds (rng i) (Hok i)) as (lo & hi & _ & _ & Hf & Hlo & Hhi & Hgap).
  rewrite Hr, Hb. split; [reflexivity|]. split; [lia|]. split; [lia|].
  f_equal. rewrite drive_engine_fst.
  pose proof (Hok i) as Hv. unfold variates_ok in Hv. cbn zeta in Hv.
  apply (in_range_classified _ _ (choose_range_in_table (pick_band (rng i))) Hv).
Qed.

(** X16. [update_from_rpm] prints at most one line, and it prints none
    exactly when the rounded rpm is 0: any other rpm below idle, negative
    ones included, is announced. *)
Theorem X16_silent_only_at_zero (w : double) :
  (snd (update_from_rpm w) = [] <-> filtered_rpm (fst (update_from_rpm w)) = 0) /\
  (List.length (snd (update_from_rpm w)) <= 1)%nat.
Proof.
  rewrite update_from_rpm_eq. cbn [fst snd filtered_rpm m_filtered_rpm].
  generalize (Int.of_long (lround (rpm_of_angular_speed w))). intros n.
  unfold classify. destruct (Z.eqb_spec n 0) as [E|E].
  - cbn. split; [tauto|lia].
  - repeat match goal with
    | |- context [if ?c then _ else _] => destruct c
    end; cbn [snd List.length]; (split; [split; [discriminate|contradiction]|lia]).
Qed.

End Program.

(** * Instances on concrete inputs *)

Lemma C1_band_partition_witness :
  fst (classify 0) = PowerOff /\ fst (classify 999) = PowerOff /\
  fst (classify 1000) = Idle /\ fst (classify 3500) = Idle /\
  fst (classify 3501) = Climb /\ fst (classify 6000) = Climb /\
  fst (classify 6001) = Cruise /\ fst (classify 9000) = Cruise /\
  fst (classify 9001) = Caution /\ fst (classify 9799) = Caution /\
  fst (classify 9800) = RedLine /\ fst (classify 10200) = RedLine /\
  fst (classify 10201) = OverLimit /\ fst (classify (-5)) = PowerOff.
Proof.
  pose proof (proj1 (C1_band_partition lround_indefinite)) as T.
  split; [destruct (T 0) as (H & _); rewrite H; [reflexivity|lia]|].
  split; [destruct (T 999) as (_ & H & _); rewrite H; [reflexivity|lia]|].
  split; [apply (T 1000); lia|].
  split; [apply (T 3500); lia|].
  split; [apply (T 3501); lia|].
  split; [apply (T 6000); lia|].
  split; [apply (T 6001); lia|].
  split; [apply (T 9000); lia|].
  split; [apply (T 9001); lia|].
  split; [apply (T 9799); lia|].
  split; [apply (T 9800); lia|].
  split; [apply (T 10200); lia|].
  split; [apply (T 10201); lia|].
  apply (T (-5)); lia.
Defined.

Lemma C2_diagnostic_priority_witness :
  code (diagnose 0 14401) = 2 /\
  code (diagnose 10801 14401) = 2 /\
  code (diagnose 0 3601) = 1 /\
  code (diagnose 10801 0) = 1 /\
  code (diagnose 0 0) = 0.
Proof.
  pose proof (proj1 (C2_diagnostic_priority lround_indefinite)) as T.
  split; [|split; [|split; [|split]]].
  - apply (T 0 14401). lia.
  - apply (T 10801 14401). lia.
  - apply (T 0 3601); lia.
  - apply (T 10801 0); lia.
  - apply (T 0 0); lia.
Defined.

Lemma C3_accumulation_step_witness :
  delta_of lround_indefinite d60 = 60 /\
  exists fh',
    flight_log_hours lround_indefinite (engine_in Caution 9500) d60 FlightHours_init
      = Some fh' /\
    total_seconds fh' = 60 /\ caution_seconds fh' = 60 /\ redline_seconds fh' = 0.
Proof.
  destruct (C3_accumulation_step lround_indefinite (engine_in Caution 9500) d60
              FlightHours_init)
    as (D & _ & fh' & H & T & _ & C & _ & _ & Rl);
    try reflexivity; try (intros; reflexivity).
  split; [exact D|]. exists fh'. split; [exact H|].
  split; [apply T; discriminate|]. split; [apply C; reflexivity|].
  apply Rl; discriminate.
Defined.

(** C3 as stated fails: at [delta_seconds = 2147483648.0] the nearest integer
    is 2^31, which no [int] holds; the step adds -2^31 instead. *)
Lemma C3_counterexample :
  is_finite (of_Z 2147483648) = true /\
  round_half_away (of_Z 2147483648) = 2147483648 /\
  flight_log_hours lround_indefinite (engine_in Idle 3000) (of_Z 2147483648)
    FlightHours_init
    = Some {| total_seconds := -2147483648; caution_seconds := 0; redline_seconds := 0 |} /\
  total_seconds FlightHours_init + round_half_away (of_Z 2147483648) <> -2147483648.
Proof. vm_compute. repeat split; discriminate. Qed.

Lemma C4_conversion_and_rounding_witness :
  filtered_rpm (fst (update_from_rpm lround_indefinite (literal 1047 1)))
    = round_half_away (raw_rpm (fst (update_from_rpm lround_indefinite (literal 1047 1)))).
Proof.
  apply (proj1 (proj2 (C4_conversion_and_rounding lround_indefinite)) (literal 1047 1));
    reflexivity.
Defined.

(** C4 as stated fails: the angular speed 2^40 rad/s is finite, its rpm is
    about 1.05e13, and the [int] stored in [filtered_rpm] is not the nearest
    integer to it. *)
Lemma C4_counterexample :
  is_finite (of_Z (2 ^ 40)) = true /\
  round_half_away (raw_rpm (fst (update_from_rpm lround_indefinite (of_Z (2 ^ 40)))))
    = 10499562632854 /\
  filtered_rpm (fst (update_from_rpm lround_indefinite (of_Z (2 ^ 40)))) = -1632405866.
Proof. vm_compute. repeat split. Qed.

Lemma C5_round_trip_witness :
  filtered_rpm (fst (update_from_rpm lround_indefinite (omega_of_rpm (of_Z 9800)))) = 9800.
Proof. apply (proj1 (C5_round_trip lround_indefinite) 9800). unfold Int.INT_MAX. lia. Defined.

(** C5 as stated fails: for the integer rpm 2^31 the round trip yields
    -2^31. *)
Lemma C5_counterexample :
  0 <= 2147483648 /\
  filtered_rpm (fst (update_from_rpm lround_indefinite (omega_of_rpm (of_Z 2147483648))))
    = -2147483648.
Proof. vm_compute. split; [discriminate|reflexivity]. Qed.

Lemma C6_generator_classifier_consistent_witness :
  powerband (fst (update_from_rpm lround_indefinite (omega_of_rpm (literal 97985 10))))
    = Caution.
Proof.
  apply (proj1 (C6_generator_classifier_consistent lround_indefinite)
           range_caution (literal 97985 10)).
  - cbn. tauto.
  - vm_compute. reflexivity.
Defined.

Lemma C7_counters_monotone_witness :
  exists fh',
    flight_log_hours lround_indefinite (engine_in RedLine 10000) d60 FlightHours_init
      = Some fh' /\
    total_seconds FlightHours_init <= total_seconds fh' /\
    caution_seconds FlightHours_init <= caution_seconds fh' /\
    redline_seconds FlightHours_init <= redline_seconds fh'.
Proof.
  destruct (C7_counters_monotone lround_indefinite) as (_ & _ & _ & H).
  destruct (H (engine_in RedLine 10000) d60 FlightHours_init) as [Hstep _].
  - reflexivity.
  - rewrite B2R_d60. lra.
  - vm_compute. discriminate.
  - apply Hstep; intros _; reflexivity.
Defined.

(** C7 as stated fails twice over.  [delta_seconds = 3000000000.0] is
    non-negative, yet its nearest integer does not fit [int]; the converted
    [delta] is negative and [total_seconds] decreases.  And with
    [total_seconds] at [INT_MAX], reached from zero by one step, the step
    with [delta_seconds = 1.0] overflows [int]: it is undefined, and the sum
    reduced modulo 2^32, which two's-complement hardware leaves in the
    counter, is below the counter's old value. *)
Lemma C7_counterexample :
  leb (of_Z 0) (of_Z 3000000000) = true /\
  flight_log_hours lround_indefinite (engine_in Idle 3000) (of_Z 3000000000)
    FlightHours_init
    = Some {| total_seconds := -1294967296; caution_seconds := 0; redline_seconds := 0 |} /\
  -1294967296 < total_seconds FlightHours_init /\
  flight_log_hours lround_indefinite (engine_in Idle 3000) (of_Z 2147483647)
    FlightHours_init
    = Some {| total_seconds := 2147483647; caution_seconds := 0; redline_seconds := 0 |} /\
  is_finite (of_Z 1) = true /\
  leb (of_Z 0) (of_Z 1) = true /\
  round_half_away (of_Z 1) = 1 /\
  flight_log_hours lround_indefinite (engine_in Idle 3000) (of_Z 1)
    {| total_seconds := 2147483647; caution_seconds := 0; redline_seconds := 0 |}
    = None /\
  Int.of_long (2147483647 + 1) < 2147483647.
Proof. vm_compute. repeat split. Qed.

Lemma C9_exit_code_witness :
  exists o,
    main lround_indefinite true (constant_rng (literal 99 100) (of_Z 10500)) = Some o /\
    (exit_code o = 1 <-> true = false).
Proof.
  destruct (C9_exit_code lround_indefinite) as (_ & _ & _ & _ & R & T).
  destruct (R (constant_rng (literal 99 100) (of_Z 10500))) as (o & E & _).
  exists o. split; [exact E|]. apply (T true _ o E).
Defined.



(** ** Instances of the further properties *)

Lemma X5_diagnostic_monotone_witness :
  code (diagnose 0 0) <= code (diagnose 10801 3601).
Proof. apply (X5_diagnostic_monotone 0 0 10801 3601); lia. Defined.

Lemma X12_notification_determines_band_witness :
  fst (classify 1000) = fst (classify 3500).
Proof. apply (X12_notification_determines_band 1000 3500). reflexivity. Defined.

Lemma X9_drive_engine_within_range_witness :
  (B2R (rpm_min (choose_range (literal 1 2)))
     <= IZR (filtered_rpm
               (fst (drive_engine lround_indefinite
                       (constant_rng (literal 1 2) (of_Z 7000) O))))
     <= B2R (rpm_max (choose_range (literal 1 2))))%R /\
  0 <= filtered_rpm
         (fst (drive_engine lround_indefinite
                 (constant_rng (literal 1 2) (of_Z 7000) O))) <= 11000 /\
  ~ (900 < filtered_rpm
             (fst (drive_engine lround_indefinite
                     (constant_rng (literal 1 2) (of_Z 7000) O))) < 1000).
Proof.
  apply (X9_drive_engine_within_range lround_indefinite
           (constant_rng (literal 1 2) (of_Z 7000) O)).
  vm_compute. reflexivity.
Defined.

Lemma X10_power_off_threshold_witness :
  isPowerOff (fst (update_from_rpm lround_indefinite d60)) = true.
Proof.
  destruct (X10_power_off_threshold lround_indefinite d60) as [H _].
  - reflexivity.
  - reflexivity.
  - rewrite B2R_d60. apply Rabs_le. lra.
  - apply H. rewrite B2R_d60. lra.
Defined.

Lemma X15_rows_follow_generator_witness :
  exists o rows,
    main lround_indefinite true (constant_rng (literal 1 2) (of_Z 7000)) = Some o /\
    log_file (final o) = csv_header :: rows /\
    Forall2 (fun i row =>
               row_rpm row
                 = filtered_rpm
                     (fst (drive_engine lround_indefinite
                             (constant_rng (literal 1 2) (of_Z 7000) i))) /\
               0 <= row_rpm row <= 11000 /\
               ~ (900 < row_rpm row < 1000) /\
               row_band row
                 = to_string
                     (intended
                        (choose_range
                           (pick_band (constant_rng (literal 1 2) (of_Z 7000) i)))))
            (seq 0 3000) rows.
Proof.
  apply (X15_rows_follow_generator lround_indefinite
           (constant_rng (literal 1 2) (of_Z 7000))).
  intros i. vm_compute. reflexivity.
Defined.
